(** * FloatChat: the export job tracker and the live update feed client

    A shallow embedding of two React components of the FloatChat front end:

    - [DataExport] (components/DataExport.tsx): the export dialog, its
      [handleExport] handler and the timer-driven [simulateExport] loop;
    - [RealTimeUpdates] (components/RealTimeUpdates.tsx): the WebSocket
      client, its bounded update history and its statistics record.

    React state is modelled by explicit state passing.  A [setX(prev => f prev)]
    call applies [f] to the field [X] of the state record.  An event handler,
    and the part of an [async] function between two [await]s, runs to
    completion before anything else of the component runs (one JavaScript
    task), so each of them is one transition of the step function. *)

From Stdlib Require Import QArith.
From stdpp Require Import prelude strings pretty gmap.

Local Open Scope string_scope.
Local Open Scope list_scope.
Local Open Scope Z_scope.

(** * components/DataExport.tsx *)
Module DataExport.

(** Toast notifications (react-hot-toast) are recorded in a log. *)
Inductive Toast :=
  | toast_success (msg : string)
  | toast_error (msg : string).

Inductive Status := pending | processing | completed | failed.

#[export] Instance Status_eq_dec : EqDecision Status.
Proof. solve_decision. Defined.

(** [interface ExportRequest].  Dates are milliseconds since the epoch;
    the optional fields are [None] while the property is absent. *)
Record ExportRequest := mkExportRequest {
  id : string;
  format : string;
  parameters : list string;
  timeRange : string;
  region : string;
  status : Status;
  progress : Z;
  createdAt : Z;
  completedAt : option Z;
  downloadUrl : option string;
  fileSize : option Z
}.

(** The ids of the option tables rendered by the dialog. *)
Definition exportFormats : list string := ["csv"; "netcdf"; "json"; "excel"].
Definition parameterIds : list string :=
  ["temperature"; "salinity"; "pressure"; "oxygen"; "ph"; "chlorophyll"].
Definition timeRanges : list string := ["24h"; "7d"; "30d"; "90d"; "1y"; "custom"].
Definition regions : list string :=
  ["global"; "indian"; "pacific"; "atlantic"; "southern"].

(** A call of [simulateExport] suspended at its [await]: the request id it
    was called with and the current value of the loop variable. *)
Record Suspended := mkSuspended {
  requestId : string;
  loopProgress : Z
}.

(** The [useState] cells of the component ([selTimeRange] and [selRegion]
    are the cells [timeRange] and [region]), the toast log, and the calls
    of [simulateExport] that wait for their 500 ms timer. *)
Record State := mkState {
  isOpen : bool;
  selectedFormat : string;
  selectedParameters : list string;
  selTimeRange : string;
  selRegion : string;
  exportRequests : list ExportRequest;
  isExporting : bool;
  toasts : list Toast;
  running : list Suspended
}.

Definition init : State :=
  {| isOpen := false;
     selectedFormat := "csv";
     selectedParameters := ["temperature"; "salinity"];
     selTimeRange := "7d";
     selRegion := "global";
     exportRequests := [];
     isExporting := false;
     toasts := [];
     running := [] |}.

(** ** Setters *)

Definition setIsOpen (b : bool) (st : State) : State :=
  mkState b (selectedFormat st) (selectedParameters st) (selTimeRange st)
    (selRegion st) (exportRequests st) (isExporting st) (toasts st) (running st).

Definition setSelectedFormat (f : string) (st : State) : State :=
  mkState (isOpen st) f (selectedParameters st) (selTimeRange st)
    (selRegion st) (exportRequests st) (isExporting st) (toasts st) (running st).

Definition setSelectedParameters (f : list string → list string) (st : State) : State :=
  mkState (isOpen st) (selectedFormat st) (f (selectedParameters st)) (selTimeRange st)
    (selRegion st) (exportRequests st) (isExporting st) (toasts st) (running st).

Definition setTimeRange (t : string) (st : State) : State :=
  mkState (isOpen st) (selectedFormat st) (selectedParameters st) t
    (selRegion st) (exportRequests st) (isExporting st) (toasts st) (running st).

Definition setRegion (r : string) (st : State) : State :=
  mkState (isOpen st) (selectedFormat st) (selectedParameters st) (selTimeRange st)
    r (exportRequests st) (isExporting st) (toasts st) (running st).

Definition setExportRequests
    (f : list ExportRequest → list ExportRequest) (st : State) : State :=
  mkState (isOpen st) (selectedFormat st) (selectedParameters st) (selTimeRange st)
    (selRegion st) (f (exportRequests st)) (isExporting st) (toasts st) (running st).

Definition setIsExporting (b : bool) (st : State) : State :=
  mkState (isOpen st) (selectedFormat st) (selectedParameters st) (selTimeRange st)
    (selRegion st) (exportRequests st) b (toasts st) (running st).

Definition toast (t : Toast) (st : State) : State :=
  mkState (isOpen st) (selectedFormat st) (selectedParameters st) (selTimeRange st)
    (selRegion st) (exportRequests st) (isExporting st) (toasts st ++ [t]) (running st).

Definition setRunning (f : list Suspended → list Suspended) (st : State) : State :=
  mkState (isOpen st) (selectedFormat st) (selectedParameters st) (selTimeRange st)
    (selRegion st) (exportRequests st) (isExporting st) (toasts st) (f (running st)).

(** ** handleParameterToggle *)

Definition handleParameterToggle (parameterId : string) (st : State) : State :=
  setSelectedParameters
    (λ prev, if bool_decide (parameterId ∈@{list string} prev)
             then filter (λ p, p ≠ parameterId) prev
             else prev ++ [parameterId]) st.

(** ** simulateExport *)

(** The updater of one loop iteration:
    [prev.map(req => req.id === requestId
       ? { ...req, progress, status: 'processing' } : req)]. *)
Definition markProcessing (rid : string) (p : Z) (req : ExportRequest) : ExportRequest :=
  if decide (id req = rid)
  then mkExportRequest (id req) (format req) (parameters req) (timeRange req)
         (region req) processing p (createdAt req) (completedAt req)
         (downloadUrl req) (fileSize req)
  else req.

(** The updater after the loop.  [date] is the reading of [new Date()] and
    [rnd] the value of [Math.floor(Math.random() * 50000000)]. *)
Definition markCompleted (rid : string) (date rnd : Z) (req : ExportRequest) : ExportRequest :=
  if decide (id req = rid)
  then mkExportRequest (id req) (format req) (parameters req) (timeRange req)
         (region req) completed 100 (createdAt req) (Some date)
         (Some "#") (Some (rnd + 1000000))
  else req.

(** What [simulateExport] does once the timer it awaits has fired: the loop
    body, the increment, the loop test, and then either the next [await]
    (the call is suspended again) or the code after the loop. After the
    iteration with [progress = 100] the loop test fails and the completion
    update follows in the same task, with no [await] in between. The result
    is the new state and the suspension, if any. *)
Definition simulateExport_resume (s : Suspended) (date rnd : Z) (st : State)
    : State * option Suspended :=
  let rid := requestId s in
  let st1 := setExportRequests (map (markProcessing rid (loopProgress s))) st in
  let p' := loopProgress s + 10 in
  if bool_decide (p' ≤ 100) then
    (st1, Some (mkSuspended rid p'))
  else
    let st2 := setExportRequests (map (markCompleted rid date rnd)) st1 in
    (toast (toast_success "Export completed!") st2, None).

(** The start of a call: [progress = 0], the loop test [0 <= 100] holds and
    the call suspends at the first [await]. *)
Definition simulateExport (rid : string) (st : State) : State :=
  setRunning (λ l, l ++ [mkSuspended rid 0]) st.

(** ** handleExport *)

(** [now] is the reading of [Date.now()], [date] that of [new Date()]. The
    id is the template literal [`export_${Date.now()}`]. *)
Definition newRequest (now date : Z) (st : State) : ExportRequest :=
  {| id := "export_" +:+ pretty now;
     format := selectedFormat st;
     parameters := selectedParameters st;
     timeRange := selTimeRange st;
     region := selRegion st;
     status := pending;
     progress := 0;
     createdAt := date;
     completedAt := None;
     downloadUrl := None;
     fileSize := None |}.

Definition handleExport (now date : Z) (st : State) : State :=
  if bool_decide (length (selectedParameters st) = 0%nat) then
    toast (toast_error "Please select at least one parameter") st
  else
    let st1 := setIsExporting true st in
    let exportRequest := newRequest now date st in
    let st2 := setExportRequests (λ prev, exportRequest :: prev) st1 in
    let st3 := setIsOpen false st2 in
    let st4 := toast (toast_success "Export started") st3 in
    simulateExport (id exportRequest) st4.

(** ** The component as a transition system *)

(** User events and timer events. The dialog and its controls exist only
    while [isOpen]; the Start Export button carries
    [disabled={isExporting || selectedParameters.length === 0}]. *)
Inductive Event :=
  | ClickExportData
  | ClickClose
  | ClickFormat (f : string)
  | ClickParameter (p : string)
  | ChangeTimeRange (t : string)
  | ChangeRegion (r : string)
  | ClickStartExport (now date : Z)
  | TimerFired (i : nat) (date rnd : Z).

Definition startExportDisabled (st : State) : bool :=
  isExporting st || bool_decide (length (selectedParameters st) = 0%nat).

(** [step st e] is [None] when the event cannot happen in [st].
    [TimerFired i date rnd] resumes the [i]-th suspended call of
    [simulateExport]; [date] and [rnd] are the readings of [new Date()] and
    of [Math.floor(Math.random() * 50000000)], used by the last resumption. *)
Definition step (st : State) (e : Event) : option State :=
  match e with
  | ClickExportData => Some (setIsOpen true st)
  | ClickClose => if isOpen st then Some (setIsOpen false st) else None
  | ClickFormat f =>
      if isOpen st && bool_decide (f ∈@{list string} exportFormats)
      then Some (setSelectedFormat f st) else None
  | ClickParameter p =>
      if isOpen st && bool_decide (p ∈@{list string} parameterIds)
      then Some (handleParameterToggle p st) else None
  | ChangeTimeRange t =>
      if isOpen st && bool_decide (t ∈@{list string} timeRanges)
      then Some (setTimeRange t st) else None
  | ChangeRegion r =>
      if isOpen st && bool_decide (r ∈@{list string} regions)
      then Some (setRegion r st) else None
  | ClickStartExport now date =>
      if isOpen st && negb (startExportDisabled st)
      then Some (handleExport now date st) else None
  | TimerFired i date rnd =>
      match running st !! i with
      | Some s =>
          if bool_decide (0 ≤ rnd < 50000000) then
            let '(st', k) := simulateExport_resume s date rnd st in
            Some (setRunning (λ l, take i l ++ option_list k ++ drop (S i) l) st')
          else None
      | None => None
      end
  end.

Fixpoint run (st : State) (tr : list Event) : option State :=
  match tr with
  | [] => Some st
  | e :: tr' =>
      match step st e with
      | Some st' => run st' tr'
      | None => None
      end
  end.

Inductive reachable : State → Prop :=
  | reachable_init : reachable init
  | reachable_step st e st' :
      reachable st → step st e = Some st' → reachable st'.

(** ** Phases of the component

    Before the first accepted export the component is [idle]. Afterwards it
    holds exactly one request, and the request together with the suspended
    call of [simulateExport] is determined by the number [n] of timer
    resumptions that call has had. *)

Definition idle (st : State) : Prop :=
  isExporting st = false ∧ exportRequests st = [] ∧ running st = [].

Definition same_request (r0 r : ExportRequest) : Prop :=
  id r = id r0 ∧ format r = format r0 ∧ parameters r = parameters r0 ∧
  timeRange r = timeRange r0 ∧ region r = region r0 ∧ createdAt r = createdAt r0.

Definition unfinished (r : ExportRequest) : Prop :=
  completedAt r = None ∧ downloadUrl r = None ∧ fileSize r = None.

Definition finished (r : ExportRequest) : Prop :=
  is_Some (completedAt r) ∧ downloadUrl r = Some "#" ∧
  ∃ sz, fileSize r = Some sz ∧ 1000000 ≤ sz < 51000000.

Definition phase_job (n : nat) (r : ExportRequest) : Prop :=
  match n with
  | O => status r = pending ∧ progress r = 0 ∧ unfinished r
  | S k =>
      if decide (k < 10)%nat
      then status r = processing ∧ progress r = 10 * Z.of_nat k ∧ unfinished r
      else k = 10%nat ∧ status r = completed ∧ progress r = 100 ∧ finished r
  end.

Definition phase_running (n : nat) (rid : string) : list Suspended :=
  if decide (n ≤ 10)%nat then [mkSuspended rid (10 * Z.of_nat n)] else [].

Definition phase (r0 : ExportRequest) (n : nat) (st : State) : Prop :=
  isExporting st = true ∧
  ∃ r, exportRequests st = [r] ∧ same_request r0 r ∧ phase_job n r ∧
       running st = phase_running n (id r0).

(** The toasts shown once the call has had [n] resumptions. *)
Definition expected_toasts (n : nat) : list Toast :=
  toast_success "Export started" ::
  if decide (n = 11%nat) then [toast_success "Export completed!"] else [].

Definition ticks (e : Event) : nat :=
  match e with TimerFired _ _ _ => 1 | _ => 0 end.

Definition count_ticks (tr : list Event) : nat := sum_list (ticks <$> tr).

(** ** Worked runs

    Concrete states and runs, used as examples. *)

(** The dialog is opened, the export of the default selection is started at
    clock reading 1000, and the timer fires eleven times. *)
Definition demo_open : State := setIsOpen true init.
Definition demo_started : State := handleExport 1000 1001 demo_open.
Definition demo_ticks : list Event := replicate 11 (TimerFired 0 2000 5).
Definition demo_completed : State := default init (run demo_started demo_ticks).
Definition demo_request : ExportRequest :=
  mkExportRequest "export_1000" "csv" ["temperature"; "salinity"] "7d" "global"
    completed 100 1001 (Some 2000) (Some "#") (Some 1000005).

(** Both default parameters are switched off again. *)
Definition demo_no_parameters : State :=
  handleParameterToggle "salinity" (handleParameterToggle "temperature" init).

(** ** formatFileSize and the row of a request *)

(** [x.toFixed(1)] for [x = num / den] with [0 ≤ num], [0 < den] and
    [x < 10^21]: the integer [n] of tenths closest to [x], the larger one on
    a tie, printed as plain digits. (From 10^21 on [toFixed] prints the
    exponent form, which is not modelled.) The divisors used below are
    powers of two, so for an integer byte count below 2^53 the quotient is
    exact as a double, far below 10^21, and [toFixed] rounds its exact
    value. *)
Definition tenths (num den : Z) : Z := (20 * num + den) / (2 * den).

Definition toFixed1 (num den : Z) : string :=
  pretty (tenths num den / 10) +:+ "." +:+ pretty (tenths num den mod 10).

Definition formatFileSize (bytes : Z) : string :=
  if bool_decide (bytes < 1024) then pretty bytes +:+ " B"
  else if bool_decide (bytes < 1024 * 1024) then
    toFixed1 bytes 1024 +:+ " KB"
  else if bool_decide (bytes < 1024 * 1024 * 1024) then
    toFixed1 bytes (1024 * 1024) +:+ " MB"
  else toFixed1 bytes (1024 * 1024 * 1024) +:+ " GB".

(** The progress bar of a row: rendered for [status === 'processing'], with
    [width: `${request.progress}%`]. *)
Definition progressBarWidth (r : ExportRequest) : option string :=
  if decide (status r = processing) then Some (pretty (progress r) +:+ "%")
  else None.

(** The text of a row:
    [status === 'completed' && fileSize ? formatFileSize(fileSize)
                                        : `${progress}%`]. *)
Definition rowText (r : ExportRequest) : string :=
  match fileSize r with
  | Some sz =>
      if bool_decide (status r = completed) && negb (bool_decide (sz = 0))
      then formatFileSize sz
      else pretty (progress r) +:+ "%"
  | None => pretty (progress r) +:+ "%"
  end.

(** The download button: [status === 'completed' && downloadUrl]. *)
Definition hasDownloadButton (r : ExportRequest) : bool :=
  match downloadUrl r with
  | Some url => bool_decide (status r = completed) && negb (bool_decide (url = EmptyString))
  | None => false
  end.

End DataExport.

(** * components/RealTimeUpdates.tsx *)
Module RealTimeUpdates.

(** ** JSON values and the JavaScript operations applied to them *)

(** The result of [JSON.parse]. A number is the value of the parsed double
    ([JSON.parse] yields no NaN). An object lists its properties in the
    order of the text. *)
#[warnings="-register-all"] Inductive Json :=
  | JNull
  | JBool (b : bool)
  | JNumber (q : Q)
  | JString (s : string)
  | JArray (items : list Json)
  | JObject (props : list (string * Json)).

(** The binding of [k] that comes last: a later property of an object
    literal, or a later copy, overwrites an earlier one. *)
Fixpoint lookup_last {A} (k : string) (kvs : list (string * A)) : option A :=
  match kvs with
  | [] => None
  | (k', v) :: rest =>
      match lookup_last k rest with
      | Some w => Some w
      | None => if decide (k = k') then Some v else None
      end
  end.

(** [v.k] for a value [v] that is not [null]; [None] is [undefined]. Of
    the names read by the component ([type], [message], [status], [data],
    [stats]) none is a property of a primitive, of an array or of
    [Object.prototype]. *)
Definition prop (k : string) (v : Json) : option Json :=
  match v with
  | JObject props => lookup_last k props
  | _ => None
  end.

Definition truthy (v : Json) : bool :=
  match v with
  | JNull => false
  | JBool b => b
  | JNumber q => negb (Qeq_bool q 0)
  | JString s => negb (bool_decide (s = EmptyString))
  | JArray _ => true
  | JObject _ => true
  end.

(** [x || d], where [x] may be [undefined]. *)
Definition or_default (x : option Json) (d : Json) : Json :=
  match x with
  | Some v => if truthy v then v else d
  | None => d
  end.

(** [v === s] for a string literal [s]. *)
Definition is_string (v : Json) (s : string) : bool :=
  match v with
  | JString s' => bool_decide (s' = s)
  | _ => false
  end.

(** The own enumerable properties that an object spread [{...v}] copies, in
    the order it copies them: the properties of an object, the indices of an
    array, the characters of a string (one per character for ASCII text),
    and nothing for other primitives. *)
Definition spread_props (v : Json) : list (string * Json) :=
  match v with
  | JObject props => props
  | JArray items => imap (λ i x, (pretty i, x)) items
  | JString s =>
      imap (λ i c, (pretty i, JString (String c EmptyString)))
           (String.list_ascii_of_string s)
  | _ => []
  end.

(** ** Data of the component *)

(** [interface UpdateData]. The fields [type], [message] and [status] hold
    whatever truthy value the message carried, [data] may be absent. *)
Record UpdateData := mkUpdateData {
  id : string;
  type : Json;
  message : Json;
  timestamp : Z;
  status : Json;
  data : option Json
}.

(** A value of the [stats] object: a JSON value or a [Date]. *)
Inductive StatValue :=
  | SJson (v : Json)
  | SDate (ms : Z).

Inductive Toast :=
  | toast_success (msg : Json)
  | toast_error (msg : Json)
  | toast_warning (msg : Json).

Inductive Console :=
  | console_log (msg : string)
  | console_error (msg : string).

(** The [readyState] of a WebSocket. *)
Inductive ReadyState := CONNECTING | OPEN | CLOSING | CLOSED.

(** A timer made by [setTimeout]: still to fire, fired, or cancelled by
    [clearTimeout]. *)
Inductive TimerState := Pending | Fired | Cleared.

Inductive Lifecycle := NotMounted | Mounted | Unmounted.

(** The [useState] cells ([isConnected], [updates], [lastUpdate], [stats],
    [mounted]), the two refs, the objects of the browser the component has
    created (a WebSocket or a timer is named by its position in the list),
    the logs, and where the component is in its life. *)
Record State := mkState {
  isConnected : bool;
  updates : list UpdateData;
  lastUpdate : Z;
  stats : gmap string StatValue;
  mounted : bool;
  wsRef : option nat;
  reconnectTimeoutRef : option nat;
  sockets : list ReadyState;
  timers : list TimerState;
  toasts : list Toast;
  console : list Console;
  lifecycle : Lifecycle
}.

(** The first render; [t1] and [t2] are the readings of the two
    [new Date()] in the initial values. *)
Definition init (t1 t2 : Z) : State :=
  {| isConnected := true;
     updates := [];
     lastUpdate := t1;
     stats := <["totalFloats" := SJson (JNumber 3847)]>
              (<["activeFloats" := SJson (JNumber 3621)]>
              (<["dataPoints" := SJson (JNumber 1247832)]>
              (<["lastSync" := SDate t2]> ∅)));
     mounted := false;
     wsRef := None;
     reconnectTimeoutRef := None;
     sockets := [];
     timers := [];
     toasts := [];
     console := [];
     lifecycle := NotMounted |}.

(** ** Setters *)

Definition setIsConnected (b : bool) (st : State) : State :=
  mkState b (updates st) (lastUpdate st) (stats st) (mounted st) (wsRef st)
    (reconnectTimeoutRef st) (sockets st) (timers st) (toasts st) (console st)
    (lifecycle st).

Definition setUpdates (f : list UpdateData → list UpdateData) (st : State) : State :=
  mkState (isConnected st) (f (updates st)) (lastUpdate st) (stats st) (mounted st)
    (wsRef st) (reconnectTimeoutRef st) (sockets st) (timers st) (toasts st)
    (console st) (lifecycle st).

Definition setLastUpdate (t : Z) (st : State) : State :=
  mkState (isConnected st) (updates st) t (stats st) (mounted st) (wsRef st)
    (reconnectTimeoutRef st) (sockets st) (timers st) (toasts st) (console st)
    (lifecycle st).

Definition setStats
    (f : gmap string StatValue → gmap string StatValue) (st : State) : State :=
  mkState (isConnected st) (updates st) (lastUpdate st) (f (stats st)) (mounted st)
    (wsRef st) (reconnectTimeoutRef st) (sockets st) (timers st) (toasts st)
    (console st) (lifecycle st).

Definition setMounted (b : bool) (st : State) : State :=
  mkState (isConnected st) (updates st) (lastUpdate st) (stats st) b (wsRef st)
    (reconnectTimeoutRef st) (sockets st) (timers st) (toasts st) (console st)
    (lifecycle st).

Definition set_wsRef (r : option nat) (st : State) : State :=
  mkState (isConnected st) (updates st) (lastUpdate st) (stats st) (mounted st) r
    (reconnectTimeoutRef st) (sockets st) (timers st) (toasts st) (console st)
    (lifecycle st).

Definition set_reconnectTimeoutRef (r : option nat) (st : State) : State :=
  mkState (isConnected st) (updates st) (lastUpdate st) (stats st) (mounted st)
    (wsRef st) r (sockets st) (timers st) (toasts st) (console st) (lifecycle st).

Definition set_sockets (f : list ReadyState → list ReadyState) (st : State) : State :=
  mkState (isConnected st) (updates st) (lastUpdate st) (stats st) (mounted st)
    (wsRef st) (reconnectTimeoutRef st) (f (sockets st)) (timers st) (toasts st)
    (console st) (lifecycle st).

Definition set_timers (f : list TimerState → list TimerState) (st : State) : State :=
  mkState (isConnected st) (updates st) (lastUpdate st) (stats st) (mounted st)
    (wsRef st) (reconnectTimeoutRef st) (sockets st) (f (timers st)) (toasts st)
    (console st) (lifecycle st).

Definition toast (t : Toast) (st : State) : State :=
  mkState (isConnected st) (updates st) (lastUpdate st) (stats st) (mounted st)
    (wsRef st) (reconnectTimeoutRef st) (sockets st) (timers st) (toasts st ++ [t])
    (console st) (lifecycle st).

Definition log (c : Console) (st : State) : State :=
  mkState (isConnected st) (updates st) (lastUpdate st) (stats st) (mounted st)
    (wsRef st) (reconnectTimeoutRef st) (sockets st) (timers st) (toasts st)
    (console st ++ [c]) (lifecycle st).

Definition set_lifecycle (l : Lifecycle) (st : State) : State :=
  mkState (isConnected st) (updates st) (lastUpdate st) (stats st) (mounted st)
    (wsRef st) (reconnectTimeoutRef st) (sockets st) (timers st) (toasts st)
    (console st) l.

(** ** handleRealtimeUpdate *)

(** The readings of the clock in one call: [Date.now()] for the id, and the
    two [new Date()]. *)
Record Clock := mkClock {
  now : Z;
  date1 : Z;
  date2 : Z
}.

Definition newUpdate (c : Clock) (d : Json) : UpdateData :=
  {| id := "update_" +:+ pretty (now c);
     type := or_default (prop "type" d) (JString "data_sync");
     message := or_default (prop "message" d) (JString "Data updated");
     timestamp := date1 c;
     status := or_default (prop "status" d) (JString "success");
     data := prop "data" d |}.

(** [{ ...prev, ...s }]: the properties of [prev], then those of [s] copied
    over them one by one. *)
Definition spread_over (prev : gmap string StatValue) (s : Json)
    : gmap string StatValue :=
  foldl (λ m kv, <[kv.1 := SJson kv.2]> m) prev (spread_props s).

Definition statusToast (update : UpdateData) (st : State) : State :=
  if is_string (status update) "success" then
    toast (toast_success (message update)) st
  else if is_string (status update) "warning" then
    toast (toast_warning (message update)) st
  else if is_string (status update) "error" then
    toast (toast_error (message update)) st
  else st.

(** [None] is the [TypeError] of reading a property of [null], thrown by
    the first property access, before any cell is set. *)
Definition handleRealtimeUpdate (c : Clock) (d : Json) (st : State) : option State :=
  match d with
  | JNull => None
  | _ =>
      let update := newUpdate c d in
      let st1 := setUpdates (λ prev, take 50 (update :: prev)) st in
      let st2 := setLastUpdate (date2 c) st1 in
      let st3 :=
        match prop "stats" d with
        | Some s => if truthy s then setStats (λ prev, spread_over prev s) st2 else st2
        | None => st2
        end in
      Some (statusToast update st3)
  end.

Section WithParser.

(** [JSON.parse]: [None] when it throws a [SyntaxError]. *)
Variable JSON_parse : string → option Json.

(** ** connectWebSocket and the handlers it installs *)

Definition ws_onopen (st : State) : State :=
  log (console_log "WebSocket connected")
    (toast (toast_success (JString "Connected to real-time updates"))
       (setIsConnected true st)).

(** The [try] around [JSON.parse] and [handleRealtimeUpdate] catches both
    the [SyntaxError] and the [TypeError]. *)
Definition ws_onmessage (raw : string) (c : Clock) (st : State) : State :=
  match JSON_parse raw with
  | Some d =>
      match handleRealtimeUpdate c d st with
      | Some st' => st'
      | None => log (console_error "Error parsing WebSocket message:") st
      end
  | None => log (console_error "Error parsing WebSocket message:") st
  end.

(** [setTimeout(() => connectWebSocket(), 5000)]: the new timer is the
    next position of [timers]. *)
Definition setTimeout (st : State) : State * nat :=
  (set_timers (λ l, l ++ [Pending]) st, length (timers st)).

Definition ws_onclose (st : State) : State :=
  let st1 := setIsConnected false st in
  let st2 := toast (toast_error (JString "Disconnected from real-time updates")) st1 in
  let st3 := log (console_log "WebSocket disconnected") st2 in
  let '(st4, t) := setTimeout st3 in
  set_reconnectTimeoutRef (Some t) st4.

Definition ws_onerror (st : State) : State :=
  setIsConnected false (log (console_error "WebSocket error:") st).

(** [constructed] says whether [new WebSocket(...)] returns; otherwise it
    throws and the [catch] runs. All sockets get the same four handlers. *)
Definition connectWebSocket (constructed : bool) (st : State) : State :=
  if constructed then
    let ws := length (sockets st) in
    set_wsRef (Some ws) (set_sockets (λ l, l ++ [CONNECTING]) st)
  else
    setIsConnected false (log (console_error "Error connecting to WebSocket:") st).

(** [ws.close()]: starts the closing handshake of a socket that is
    connecting or open; the close event is delivered later, as a task of
    its own. *)
Definition ws_close (ws : nat) (st : State) : State :=
  match sockets st !! ws with
  | Some CONNECTING | Some OPEN => set_sockets (λ l, <[ws := CLOSING]> l) st
  | _ => st
  end.

Definition clearTimeout (t : nat) (st : State) : State :=
  match timers st !! t with
  | Some Pending => set_timers (λ l, <[t := Cleared]> l) st
  | _ => st
  end.

(** The function returned by the first effect. *)
Definition cleanup (st : State) : State :=
  let st1 := match wsRef st with Some ws => ws_close ws st | None => st end in
  match reconnectTimeoutRef st1 with
  | Some t => clearTimeout t st1
  | None => st1
  end.

(** ** The component as a transition system *)

Inductive Event :=
  | Mount (constructed : bool)
  | Unmount
  | ClickRefresh (constructed : bool)
  | SocketOpen (ws : nat)
  | SocketMessage (ws : nat) (raw : string) (c : Clock)
  | SocketError (ws : nat)
  | SocketClose (ws : nat)
  | TimerFired (t : nat) (constructed : bool).

(** [step st e] is [None] when the event cannot happen in [st]: the Refresh
    button exists while the component is mounted; a socket opens once,
    delivers messages while open, and closes once; a timer fires only while
    it is pending. *)
Definition step (st : State) (e : Event) : option State :=
  match e with
  | Mount constructed =>
      match lifecycle st with
      | NotMounted =>
          Some (setMounted true (connectWebSocket constructed (set_lifecycle Mounted st)))
      | _ => None
      end
  | Unmount =>
      match lifecycle st with
      | Mounted => Some (cleanup (set_lifecycle Unmounted st))
      | _ => None
      end
  | ClickRefresh constructed =>
      match lifecycle st with
      | Mounted => Some (connectWebSocket constructed st)
      | _ => None
      end
  | SocketOpen ws =>
      match sockets st !! ws with
      | Some CONNECTING => Some (ws_onopen (set_sockets (λ l, <[ws := OPEN]> l) st))
      | _ => None
      end
  | SocketMessage ws raw c =>
      match sockets st !! ws with
      | Some OPEN => Some (ws_onmessage raw c st)
      | _ => None
      end
  | SocketError ws =>
      match sockets st !! ws with
      | Some CLOSED | None => None
      | Some _ => Some (ws_onerror st)
      end
  | SocketClose ws =>
      match sockets st !! ws with
      | Some CLOSED | None => None
      | Some _ => Some (ws_onclose (set_sockets (λ l, <[ws := CLOSED]> l) st))
      end
  | TimerFired t constructed =>
      match timers st !! t with
      | Some Pending =>
          Some (connectWebSocket constructed (set_timers (λ l, <[t := Fired]> l) st))
      | _ => None
      end
  end.

Fixpoint run (st : State) (tr : list Event) : option State :=
  match tr with
  | [] => Some st
  | e :: tr' =>
      match step st e with
      | Some st' => run st' tr'
      | None => None
      end
  end.

Inductive reachable : State → Prop :=
  | reachable_init t1 t2 : reachable (init t1 t2)
  | reachable_step st e st' :
      reachable st → step st e = Some st' → reachable st'.

End WithParser.

(** ** Worked runs

    Concrete states and runs, used as examples. *)

(** A parser for the examples: it knows three payloads. *)
Definition demo_parse (raw : string) : option Json :=
  if decide (raw = "{}") then Some (JObject [])
  else if decide (raw = "{stats:{activeEntities:10}}") then
    Some (JObject [("stats", JObject [("activeEntities", JNumber 10)])])
  else if decide (raw = "null") then Some JNull
  else None.

Definition demo_clock : Clock := mkClock 1000 1001 1002.

(** The component after it was mounted and its socket has opened. *)
Definition demo_connected : State :=
  default (init 0 0) (run demo_parse (init 0 0) [Mount true; SocketOpen 0]).

(** Fifty messages have arrived on the open socket. *)
Definition demo_fifty : list Event :=
  [Mount true; SocketOpen 0] ++ replicate 50 (SocketMessage 0 "{}" demo_clock).
Definition demo_full : State :=
  default (init 0 0) (run demo_parse (init 0 0) demo_fifty).

(** The statistics of the example: [{activeEntities: 5, total: 20}]. *)
Definition demo_stats : State :=
  setStats (λ _, <["activeEntities" := SJson (JNumber 5)]>
                 (<["total" := SJson (JNumber 20)]> ∅)) (init 0 0).
Definition demo_update : Json :=
  JObject [("stats", JObject [("activeEntities", JNumber 10)])].

(** ** The refs *)

(** A ref names the newest object of a list: it is unset while the list is
    empty and holds the last position otherwise. *)
Definition newest {A} (l : list A) (r : option nat) : Prop :=
  match r with
  | None => l = []
  | Some i => length l = S i
  end.

(** The update that a message without usable fields gets. *)
Definition defaultUpdate (c : Clock) : UpdateData :=
  {| id := "update_" +:+ pretty (now c);
     type := JString "data_sync";
     message := JString "Data updated";
     timestamp := date1 c;
     status := JString "success";
     data := None |}.

(** The component with two open sockets: mounted, opened, refreshed, and
    the second socket opened too. *)
Definition demo_two_sockets : State :=
  default (init 0 0)
    (run demo_parse (init 0 0)
       [Mount true; SocketOpen 0; ClickRefresh true; SocketOpen 1]).

(** A stand-in for the date format of the locale. *)
Definition demo_locale (date : Z) : string := "1/1/2025".

(** A message that names [lastSync] in its statistics. *)
Definition demo_sync_update : Json :=
  JObject [("stats", JObject [("lastSync", JString "2025-01-01T00:00:00Z")])].

(** ** formatTimeAgo and the Last Sync cell *)

Section WithLocale.

(** [date.toLocaleDateString()], which depends on the locale of the
    browser. *)
Variable toLocaleDateString : Z → string.

(** [now] is the reading of [new Date()] in the call. The time values are
    integers; for an age below 2^53 ms in absolute value [Math.floor] of
    the double quotient is the floor of the exact quotient. *)
Definition formatTimeAgo (now date : Z) : string :=
  let diff := now - date in
  let seconds := diff `div` 1000 in
  let minutes := seconds `div` 60 in
  let hours := minutes `div` 60 in
  if bool_decide (seconds < 60) then pretty seconds +:+ "s ago"
  else if bool_decide (minutes < 60) then pretty minutes +:+ "m ago"
  else if bool_decide (hours < 24) then pretty hours +:+ "h ago"
  else toLocaleDateString date.

(** The cell [{mounted ? formatTimeAgo(stats.lastSync) : ''}] of the
    statistics grid. [None] is a [TypeError] thrown while rendering:
    [formatTimeAgo] calls [date.getTime()], which only a [Date] has; a value
    that came out of [JSON.parse] is never a [Date]. *)
Definition lastSyncCell (now : Z) (st : State) : option string :=
  if mounted st then
    match stats st !! "lastSync" with
    | Some (SDate d) => Some (formatTimeAgo now d)
    | Some (SJson _) => None
    | None => None
    end
  else Some EmptyString.

End WithLocale.

End RealTimeUpdates.

(** * components/Collaboration.tsx *)
Module Collaboration.

(** [formatTimeAgo] of the collaboration panel: no seconds and no date, but
    days. [now] is the reading of [new Date()] in the call; the floors are
    exact as in the feed's [formatTimeAgo]. *)
Definition formatTimeAgo (now date : Z) : string :=
  let diff := now - date in
  let minutes := diff `div` 60000 in
  let hours := minutes `div` 60 in
  let days := hours `div` 24 in
  if bool_decide (minutes < 60) then pretty minutes +:+ "m ago"
  else if bool_decide (hours < 24) then pretty hours +:+ "h ago"
  else pretty days +:+ "d ago".

End Collaboration.

(** * components/Dashboard.tsx *)
Module Dashboard.
Import RealTimeUpdates.

Inductive Trend := up | down.

(** [interface Metric]; an icon is named by its component. *)
Record Metric := mkMetric {
  label : string;
  value : string;
  change : string;
  trend : Trend;
  icon : string;
  color : string
}.

Definition regions : list string := ["global"; "indian"; "pacific"; "atlantic"].
Definition timeRanges : list string := ["24h"; "7d"; "30d"; "90d"].

(** The four cards, with the given values. *)
Definition metrics (total active measurements lastIngest : string) : list Metric :=
  [ mkMetric "Total Floats" total EmptyString up "Navigation" "text-purple-400";
    mkMetric "Active Floats" active EmptyString up "Navigation" "text-purple-400";
    mkMetric "Measurements" measurements EmptyString up "Activity" "text-green-400";
    mkMetric "Last Ingest" lastIngest EmptyString up "Clock" "text-blue-400" ].

Definition initialMetrics : list Metric := metrics "—" "—" "—" "—".

(** Where the call of [loadStats] is: not started, waiting for [fetch],
    waiting for [res.json()], or returned. *)
Inductive LoadStats := NotStarted | AwaitingFetch | AwaitingJson | Settled.

Inductive Lifecycle := NotMounted | Mounted | Unmounted.

(** The [useState] cells, the variable [aborted] of the effect, the call of
    [loadStats], and the number of calls of [handleRefresh] that wait for
    their 2 s timer. *)
Record State := mkState {
  selectedRegion : string;
  timeRange : string;
  isLoading : bool;
  lastUpdated : Z;
  mounted : bool;
  oceanMetrics : list Metric;
  aborted : bool;
  loadStats : LoadStats;
  refreshing : nat;
  lifecycle : Lifecycle
}.

(** The first render; [t] is the reading of [new Date()]. *)
Definition init (t : Z) : State :=
  {| selectedRegion := "global";
     timeRange := "7d";
     isLoading := false;
     lastUpdated := t;
     mounted := false;
     oceanMetrics := initialMetrics;
     aborted := false;
     loadStats := NotStarted;
     refreshing := 0;
     lifecycle := NotMounted |}.

(** ** Setters *)

Definition setSelectedRegion (r : string) (st : State) : State :=
  mkState r (timeRange st) (isLoading st) (lastUpdated st) (mounted st)
    (oceanMetrics st) (aborted st) (loadStats st) (refreshing st) (lifecycle st).

Definition setTimeRange (t : string) (st : State) : State :=
  mkState (selectedRegion st) t (isLoading st) (lastUpdated st) (mounted st)
    (oceanMetrics st) (aborted st) (loadStats st) (refreshing st) (lifecycle st).

Definition setIsLoading (b : bool) (st : State) : State :=
  mkState (selectedRegion st) (timeRange st) b (lastUpdated st) (mounted st)
    (oceanMetrics st) (aborted st) (loadStats st) (refreshing st) (lifecycle st).

Definition setLastUpdated (t : Z) (st : State) : State :=
  mkState (selectedRegion st) (timeRange st) (isLoading st) t (mounted st)
    (oceanMetrics st) (aborted st) (loadStats st) (refreshing st) (lifecycle st).

Definition setMounted (b : bool) (st : State) : State :=
  mkState (selectedRegion st) (timeRange st) (isLoading st) (lastUpdated st) b
    (oceanMetrics st) (aborted st) (loadStats st) (refreshing st) (lifecycle st).

Definition setOceanMetrics (m : list Metric) (st : State) : State :=
  mkState (selectedRegion st) (timeRange st) (isLoading st) (lastUpdated st)
    (mounted st) m (aborted st) (loadStats st) (refreshing st) (lifecycle st).

Definition set_aborted (b : bool) (st : State) : State :=
  mkState (selectedRegion st) (timeRange st) (isLoading st) (lastUpdated st)
    (mounted st) (oceanMetrics st) b (loadStats st) (refreshing st) (lifecycle st).

Definition set_loadStats (l : LoadStats) (st : State) : State :=
  mkState (selectedRegion st) (timeRange st) (isLoading st) (lastUpdated st)
    (mounted st) (oceanMetrics st) (aborted st) l (refreshing st) (lifecycle st).

Definition set_refreshing (n : nat) (st : State) : State :=
  mkState (selectedRegion st) (timeRange st) (isLoading st) (lastUpdated st)
    (mounted st) (oceanMetrics st) (aborted st) (loadStats st) n (lifecycle st).

Definition set_lifecycle (l : Lifecycle) (st : State) : State :=
  mkState (selectedRegion st) (timeRange st) (isLoading st) (lastUpdated st)
    (mounted st) (oceanMetrics st) (aborted st) (loadStats st) (refreshing st) l.

Section WithFormats.

(** [String(v)] for a number, an array or an object, and
    [new Date(v).toLocaleString()]. *)
Variable String_other : Json → string.
Variable dateToLocaleString : Json → string.

(** ** loadStats *)

(** [String(v)]. *)
Definition js_String (v : Json) : string :=
  match v with
  | JString s => s
  | JBool true => "true"
  | JBool false => "false"
  | JNull => "null"
  | _ => String_other v
  end.

(** [x ?? '—'], where [x] may be [undefined]. *)
Definition or_dash (x : option Json) : Json :=
  match x with
  | None | Some JNull => JString "—"
  | Some v => v
  end.

(** [v[0]] for a truthy value [v]. *)
Definition index0 (v : Json) : option Json :=
  match v with
  | JArray items => head items
  | JObject props => lookup_last "0" props
  | JString (String c _) => Some (JString (String c EmptyString))
  | _ => None
  end.

(** [stats.recent_metrics && stats.recent_metrics[0]
       ? stats.recent_metrics[0].timestamp : null], with [None] for [null]
    and [undefined]. *)
Definition recentTs (stats : Json) : option Json :=
  match prop "recent_metrics" stats with
  | Some rm =>
      if truthy rm then
        match index0 rm with
        | Some first => if truthy first then prop "timestamp" first else None
        | None => None
        end
      else None
  | None => None
  end.

Definition lastIngest (stats : Json) : string :=
  match recentTs stats with
  | Some ts => if truthy ts then dateToLocaleString ts else "—"
  | None => "—"
  end.

(** What [loadStats] does with the parsed body, after the test of
    [aborted]. [None] is the [TypeError] of reading a property of [null];
    the [catch] ignores it. *)
Definition loadedMetrics (stats : Json) : option (list Metric) :=
  match stats with
  | JNull => None
  | _ =>
      Some (metrics (js_String (or_dash (prop "total_floats" stats)))
                    (js_String (or_dash (prop "active_floats" stats)))
                    (js_String (or_dash (prop "total_measurements" stats)))
                    (lastIngest stats))
  end.

(** ** The component as a transition system *)

Inductive Event :=
  | Mount
  | Unmount
  | ClickRegion (r : string)
  | ClickTimeRange (t : string)
  | ClickRefresh
  | RefreshTimer (date : Z)
  | FetchResolved (ok : bool)
  | FetchRejected
  | JsonResolved (stats : Json)
  | JsonRejected.

(** [step st e] is [None] when the event cannot happen in [st]. The buttons
    exist while the component is mounted, and Refresh carries
    [disabled={isLoading}]. *)
Definition step (st : State) (e : Event) : option State :=
  match e with
  | Mount =>
      match lifecycle st with
      | NotMounted =>
          Some (set_loadStats AwaitingFetch (setMounted true (set_lifecycle Mounted st)))
      | _ => None
      end
  | Unmount =>
      match lifecycle st with
      | Mounted => Some (set_aborted true (set_lifecycle Unmounted st))
      | _ => None
      end
  | ClickRegion r =>
      match lifecycle st with
      | Mounted =>
          if bool_decide (r ∈@{list string} regions)
          then Some (setSelectedRegion r st) else None
      | _ => None
      end
  | ClickTimeRange t =>
      match lifecycle st with
      | Mounted =>
          if bool_decide (t ∈@{list string} timeRanges)
          then Some (setTimeRange t st) else None
      | _ => None
      end
  | ClickRefresh =>
      match lifecycle st with
      | Mounted =>
          if isLoading st then None
          else Some (set_refreshing (S (refreshing st)) (setIsLoading true st))
      | _ => None
      end
  | RefreshTimer date =>
      match refreshing st with
      | S n => Some (set_refreshing n (setIsLoading false (setLastUpdated date st)))
      | O => None
      end
  | FetchResolved ok =>
      match loadStats st with
      | AwaitingFetch =>
          if ok then Some (set_loadStats AwaitingJson st)
          else Some (set_loadStats Settled st)
      | _ => None
      end
  | FetchRejected =>
      match loadStats st with
      | AwaitingFetch => Some (set_loadStats Settled st)
      | _ => None
      end
  | JsonResolved stats =>
      match loadStats st with
      | AwaitingJson =>
          if aborted st then Some (set_loadStats Settled st)
          else
            match loadedMetrics stats with
            | Some m => Some (set_loadStats Settled (setOceanMetrics m st))
            | None => Some (set_loadStats Settled st)
            end
      | _ => None
      end
  | JsonRejected =>
      match loadStats st with
      | AwaitingJson => Some (set_loadStats Settled st)
      | _ => None
      end
  end.

Fixpoint run (st : State) (tr : list Event) : option State :=
  match tr with
  | [] => Some st
  | e :: tr' =>
      match step st e with
      | Some st' => run st' tr'
      | None => None
      end
  end.

Inductive reachable : State → Prop :=
  | reachable_init t : reachable (init t)
  | reachable_step st e st' :
      reachable st → step st e = Some st' → reachable st'.

End WithFormats.

(** ** Worked runs *)

Definition demo_String (v : Json) : string := "?".
Definition demo_date (v : Json) : string := "a date".

(** The body [{total_floats: 0, active_floats: null}]. *)
Definition demo_body : Json :=
  JObject [("total_floats", JNumber 0); ("active_floats", JNull)].

Definition demo_run (tr : list Event) : State :=
  default (init 0) (run demo_String demo_date (init 0) tr).

(** Mounted; mounted with a refresh under way; mounted with the response
    parsed; unmounted while the body is still being parsed. *)
Definition demo_mounted : State := demo_run [Mount].
Definition demo_loading : State := demo_run [Mount; ClickRefresh].
Definition demo_loaded : State :=
  demo_run [Mount; FetchResolved true; JsonResolved demo_body].
Definition demo_left : State := demo_run [Mount; FetchResolved true; Unmount].

End Dashboard.

(** * Facts about the export job tracker *)
Module DataExportFacts.
Import DataExport.

(** ** Preservation *)

Lemma phase_job_bound n r : phase_job n r → (n ≤ 11)%nat.
Proof.
  destruct n as [|k]; simpl; [lia|].
  destruct (decide (k < 10)%nat); [lia|]. intros [-> _]. lia.
Qed.

Lemma step_idle st e st' :
  idle st → step st e = Some st' →
  idle st' ∨ ∃ now date, e = ClickStartExport now date ∧
                         phase (newRequest now date st) 0 st'.
Proof.
  intros (Hex & Hreq & Hrun) Hstep.
  destruct e; simpl in Hstep;
    try (repeat case_match; simplify_eq; left; by repeat split).
  - case_match; [|done]. simplify_eq. right. exists now, date. split; [done|].
    unfold handleExport. case_bool_decide as Hlen.
    { unfold startExportDisabled in *. rewrite bool_decide_true in * by done.
      by rewrite orb_true_r, andb_false_r in *. }
    split; [done|]. exists (newRequest now date st). simpl.
    rewrite Hreq, Hrun. by repeat split.
  - rewrite Hrun in Hstep. done.
Qed.

Lemma markProcessing_same rid p r :
  id r = rid →
  markProcessing rid p r =
    mkExportRequest (id r) (format r) (parameters r) (timeRange r)
      (region r) processing p (createdAt r) (completedAt r)
      (downloadUrl r) (fileSize r).
Proof. intros H. unfold markProcessing. by rewrite decide_True. Qed.

Lemma markCompleted_same rid date rnd r :
  id r = rid →
  markCompleted rid date rnd r =
    mkExportRequest (id r) (format r) (parameters r) (timeRange r)
      (region r) completed 100 (createdAt r) (Some date)
      (Some "#") (Some (rnd + 1000000)).
Proof. intros H. unfold markCompleted. by rewrite decide_True. Qed.

Lemma step_phase r0 n st e st' :
  phase r0 n st → step st e = Some st' → phase r0 (n + ticks e) st'.
Proof.
  intros (Hex & r & Hreq & Hsame & Hjob & Hrun) Hstep.
  destruct e; simpl in Hstep; rewrite ?Nat.add_0_r;
    try (repeat case_match; simplify_eq; split; [done|]; by exists r).
  - unfold startExportDisabled in Hstep. rewrite Hex in Hstep. simpl in Hstep.
    by rewrite andb_false_r in Hstep.
  - rewrite Hrun in Hstep. unfold phase_running in Hstep.
    destruct (decide (n ≤ 10)%nat) as [Hn|Hn]; [|done].
    destruct i as [|i]; [|done]. simpl in Hstep.
    case_bool_decide as Hrnd; [|done].
    unfold simulateExport_resume in Hstep. simpl in Hstep.
    assert (id r = id r0) as Hid by apply Hsame.
    case_bool_decide as Hp; simplify_eq; simpl.
    + (* the loop goes on *)
      split; [done|]. simpl. rewrite Hreq, Hrun. simpl.
      rewrite markProcessing_same by done.
      eexists; split; [done|]. split; [by destruct Hsame as (?&?&?&?&?&?)|].
      replace (n + 1)%nat with (S n) by lia. simpl.
      rewrite decide_True by lia. split.
      * assert (unfinished r) as Hunf.
        { destruct n as [|k]; simpl in Hjob; [by destruct Hjob as (_&_&?)|].
          destruct (decide (k < 10)%nat); [by destruct Hjob as (_&_&?)|lia]. }
        by repeat split; try apply Hunf.
      * unfold phase_running. rewrite decide_True by lia.
        rewrite decide_True by lia. do 2 f_equal. lia.
    + (* the loop ends: the request is marked as completed *)
      split; [done|]. simpl. rewrite Hreq, Hrun. simpl.
      rewrite markProcessing_same by done.
      rewrite markCompleted_same by done. simpl.
      eexists; split; [done|]. split; [by destruct Hsame as (?&?&?&?&?&?)|].
      assert (n = 10%nat) as -> by (clear -Hn Hp; lia). simpl. split.
      * repeat split; try done. exists (rnd + 1000000). split; [done|lia].
      * unfold phase_running. repeat case_decide; try lia; done.
Qed.

Lemma run_phase r0 n st tr st' :
  phase r0 n st → run st tr = Some st' → phase r0 (n + count_ticks tr) st'.
Proof.
  revert n st. induction tr as [|e tr IH]; intros n st Hph Hrun; simpl in *.
  - simplify_eq. by rewrite Nat.add_0_r.
  - destruct (step st e) as [st1|] eqn:Hstep; [|done].
    unfold count_ticks. simpl. rewrite Nat.add_assoc.
    eapply IH; [|done]. by eapply step_phase.
Qed.

Lemma reachable_cases st :
  reachable st → idle st ∨ ∃ r0 n, phase r0 n st.
Proof.
  induction 1 as [|st e st' _ IH Hstep].
  - by left.
  - destruct IH as [Hidle|(r0 & n & Hph)].
    + destruct (step_idle _ _ _ Hidle Hstep) as [?|(now & date & -> & ?)]; eauto.
    + right. eauto using step_phase.
Qed.

Lemma run_reachable st tr st' :
  reachable st → run st tr = Some st' → reachable st'.
Proof.
  revert st. induction tr as [|e tr IH]; intros st Hr Hrun; simpl in Hrun.
  - by simplify_eq.
  - destruct (step st e) as [st1|] eqn:Hstep; [|done].
    eapply IH; [|done]. by eapply reachable_step.
Qed.

Lemma phase_job_shape n r :
  phase_job n r →
  status r ≠ failed ∧
  (progress r = 100 ↔ status r = completed) ∧
  (is_Some (completedAt r) ↔ status r = completed).
Proof.
  destruct n as [|k]; simpl.
  - intros (Hs & Hp & Hc & _). rewrite Hs, Hp, Hc.
    split; [done|]. split; (split; [|done]); [lia|by intros [? ?]].
  - destruct (decide (k < 10)%nat).
    + intros (Hs & Hp & Hc & _). rewrite Hs, Hp, Hc.
      split; [done|]. split; (split; [|done]); [lia|by intros [? ?]].
    + intros (_ & Hs & Hp & Hc & _). rewrite Hs, Hp. done.
Qed.

(** ** The request list at the states the component can be observed in

    The states of [reachable] are those between two tasks of the component:
    after an event handler has returned, or after a resumed call of
    [simulateExport] has reached its next [await] or its end. *)

(** C1. In every reachable state of the export component, every request of
    the list has [progress = 100] exactly when its status is [completed],
    and has a [completedAt] date exactly when its status is [completed]. *)
Theorem export_requests_invariant st r :
  reachable st → r ∈ exportRequests st →
  (progress r = 100 ↔ status r = completed) ∧
  (is_Some (completedAt r) ↔ status r = completed).
Proof.
  intros Hr Hin. destruct (reachable_cases st Hr) as [(_ & Hnil & _)|(r0 & n & Hph)].
  - rewrite Hnil in Hin. by apply elem_of_nil in Hin.
  - destruct Hph as (_ & r' & Hreq & _ & Hjob & _).
    rewrite Hreq in Hin. apply list_elem_of_singleton in Hin as ->.
    by apply phase_job_shape in Hjob as (_ & ? & ?).
Qed.

(** Inside the last resumption of [simulateExport] the two updaters are
    applied one after the other without an [await] in between: the value
    handed from the first to the second has [progress = 100] and status
    [processing]. It is the argument of the second updater only. *)
Lemma last_iteration_then_completed rid date rnd r :
  id r = rid →
  status (markProcessing rid 100 r) = processing ∧
  progress (markProcessing rid 100 r) = 100 ∧
  status (markCompleted rid date rnd (markProcessing rid 100 r)) = completed.
Proof.
  intros Hid. rewrite (markProcessing_same rid) by done.
  rewrite (markCompleted_same rid) by done. done.
Qed.

(** ** handleExport *)

(** C5. With no parameter selected, [handleExport] only reports the error
    (the toast 'Please select at least one parameter') and returns: the
    request list and every other cell of the component keep their values,
    no request is created and no call of [simulateExport] is started. In
    such a state the Start Export button is disabled as well, so the click
    that would call the handler cannot happen. *)
Theorem handleExport_empty_parameters st now date :
  selectedParameters st = [] →
  handleExport now date st =
    toast (toast_error "Please select at least one parameter") st ∧
  exportRequests (handleExport now date st) = exportRequests st ∧
  running (handleExport now date st) = running st ∧
  isExporting (handleExport now date st) = isExporting st ∧
  isOpen (handleExport now date st) = isOpen st ∧
  selectedParameters (handleExport now date st) = selectedParameters st ∧
  selectedFormat (handleExport now date st) = selectedFormat st ∧
  selTimeRange (handleExport now date st) = selTimeRange st ∧
  selRegion (handleExport now date st) = selRegion st ∧
  step st (ClickStartExport now date) = None.
Proof.
  intros Hnil. unfold handleExport. rewrite Hnil. simpl. split_and!; try done.
  unfold startExportDisabled. rewrite Hnil. simpl.
  by rewrite orb_true_r, andb_false_r.
Qed.


Lemma newRequest_id_inj now1 date1 st1 now2 date2 st2 :
  id (newRequest now1 date1 st1) = id (newRequest now2 date2 st2) ↔ now1 = now2.
Proof.
  simpl. split; [|by intros ->].
  intros H. injection H as H. by apply (inj pretty).
Qed.





(** ** One export, from the click to its completion *)

Lemma step_accepted_idle st now date st1 :
  reachable st → step st (ClickStartExport now date) = Some st1 →
  phase (newRequest now date st) 0 st1.
Proof.
  intros Hr Hstep. destruct (reachable_cases st Hr) as [Hidle|(r0 & n & Hph)].
  - destruct (step_idle _ _ _ Hidle Hstep) as [(Hex & _)|(? & ? & [= <- <-] & ?)];
      [|done].
    exfalso. simpl in Hstep. case_match eqn:Hen; [|done]. simplify_eq.
    unfold handleExport in Hex. case_bool_decide as Hlen; [|done].
    unfold startExportDisabled in Hen. rewrite bool_decide_true in Hen by done.
    by rewrite orb_true_r, andb_false_r in Hen.
  - exfalso. destruct Hph as (Hex & _). simpl in Hstep.
    unfold startExportDisabled in Hstep. rewrite Hex in Hstep. simpl in Hstep.
    by rewrite andb_false_r in Hstep.
Qed.

(** C6. A request created by an accepted click on Start Export is driven by
    the timer alone. After [n] timer resumptions of its [simulateExport]
    call, whatever other events came in between: there were at most 11; the
    request is [pending] at 0 for [n = 0], [processing] at [10 * (n - 1)]
    for [1 ≤ n ≤ 10], and for [n = 11] it is [completed] at 100 with
    [completedAt], [downloadUrl] and [fileSize] set. Its progress is 100
    exactly when it is [completed], it is never [failed], and as long as
    [n < 11] the next timer resumption can happen. *)
Theorem export_completes_in_11_ticks st now date st1 tr st2 :
  reachable st →
  step st (ClickStartExport now date) = Some st1 →
  run st1 tr = Some st2 →
  (count_ticks tr ≤ 11)%nat ∧
  ∃ r, exportRequests st2 = [r] ∧
    id r = "export_" +:+ pretty now ∧
    (count_ticks tr = 0%nat → status r = pending ∧ progress r = 0) ∧
    ((1 ≤ count_ticks tr ≤ 10)%nat →
       status r = processing ∧ progress r = 10 * (Z.of_nat (count_ticks tr) - 1)) ∧
    (count_ticks tr = 11%nat →
       status r = completed ∧ progress r = 100 ∧ is_Some (completedAt r) ∧
       downloadUrl r = Some "#" ∧ is_Some (fileSize r)) ∧
    (progress r = 100 ↔ status r = completed) ∧
    status r ≠ failed ∧
    ((count_ticks tr < 11)%nat →
       ∀ date' rnd, 0 ≤ rnd < 50000000 →
         is_Some (step st2 (TimerFired 0 date' rnd))).
Proof.
  intros Hr Hstep Hrun.
  pose proof (step_accepted_idle _ _ _ _ Hr Hstep) as Hph0.
  pose proof (run_phase _ _ _ _ _ Hph0 Hrun) as Hph. simpl in Hph.
  destruct Hph as (_ & r & Hreq & Hsame & Hjob & Hrunning).
  generalize dependent (count_ticks tr). intros n Hjob Hrunning.
  split; [by eapply phase_job_bound|].
  exists r. split; [done|]. split; [apply Hsame|].
  destruct (phase_job_shape _ _ Hjob) as (Hnf & H100 & _).
  split_and!; [| | |done|done|].
  - intros ->. simpl in Hjob. by destruct Hjob as (? & ? & _).
  - intros Hn. destruct n as [|k]; [lia|]. simpl in Hjob.
    rewrite decide_True in Hjob by lia. destruct Hjob as (? & -> & _).
    split; [done|lia].
  - intros ->. simpl in Hjob.
    destruct Hjob as (_ & ? & ? & ? & ? & sz & -> & _). by split_and!.
  - intros Hn date' rnd Hrnd. simpl. rewrite Hrunning.
    unfold phase_running. rewrite decide_True by lia. simpl.
    rewrite bool_decide_true by done.
    by destruct (simulateExport_resume _ _ _ _).
Qed.

(** ** The isExporting flag *)

Lemma step_keeps_isExporting st e st' :
  isExporting st = true → step st e = Some st' →
  isExporting st' = true ∧
  length (exportRequests st') = length (exportRequests st) ∧
  (∀ now date, e ≠ ClickStartExport now date).
Proof.
  intros Hex Hstep.
  destruct e; simpl in Hstep;
    try (repeat case_match; simplify_eq; by repeat split).
  - unfold startExportDisabled in Hstep. rewrite Hex in Hstep. simpl in Hstep.
    by rewrite andb_false_r in Hstep.
  - destruct (running st !! i) as [s|]; [|done].
    case_bool_decide; [|done]. unfold simulateExport_resume in Hstep.
    case_bool_decide; simplify_eq; simpl; by rewrite ?length_map.
Qed.

(** C10. An accepted click on Start Export sets [isExporting], and nothing
    sets it back: in every state reached afterwards the flag is still set,
    the Start Export button is disabled, a click on it cannot happen, no
    event of the run was such a click, and the request list has the length
    it had right after the first export was accepted. *)
Theorem isExporting_latches st now date st1 tr st2 :
  step st (ClickStartExport now date) = Some st1 →
  run st1 tr = Some st2 →
  isExporting st1 = true ∧
  isExporting st2 = true ∧
  startExportDisabled st2 = true ∧
  (∀ now' date', step st2 (ClickStartExport now' date') = None) ∧
  Forall (λ e, ∀ now' date', e ≠ ClickStartExport now' date') tr ∧
  length (exportRequests st2) = length (exportRequests st1).
Proof.
  intros Hstep Hrun.
  assert (isExporting st1 = true) as Hex1.
  { simpl in Hstep. case_match eqn:Hen; [|done]. simplify_eq.
    unfold handleExport. case_bool_decide; [|done].
    unfold startExportDisabled in Hen. rewrite bool_decide_true in Hen by done.
    by rewrite orb_true_r, andb_false_r in Hen. }
  split; [done|].
  assert (isExporting st2 = true ∧
          Forall (λ e, ∀ now' date', e ≠ ClickStartExport now' date') tr ∧
          length (exportRequests st2) = length (exportRequests st1))
    as (Hex2 & Hall & Hlen).
  { clear Hstep. revert st1 Hex1 Hrun.
    induction tr as [|e tr IH]; intros st1 Hex1 Hrun; simpl in Hrun.
    - by simplify_eq.
    - destruct (step st1 e) as [st'|] eqn:Hstep; [|done].
      destruct (step_keeps_isExporting _ _ _ Hex1 Hstep) as (Hex' & Hlen' & Hne).
      destruct (IH _ Hex' Hrun) as (? & ? & ?).
      split; [done|]. split; [by constructor|congruence]. }
  repeat split; try done.
  - unfold startExportDisabled. by rewrite Hex2.
  - intros now' date'. simpl. unfold startExportDisabled. rewrite Hex2. simpl.
    by rewrite andb_false_r.
Qed.

(** ** Worked runs *)

Lemma export_requests_invariant_witness :
  reachable demo_completed ∧
  demo_request ∈ exportRequests demo_completed ∧
  (progress demo_request = 100 ↔ status demo_request = completed) ∧
  (is_Some (completedAt demo_request) ↔ status demo_request = completed).
Proof.
  assert (reachable demo_completed) as Hr.
  { apply (run_reachable init
             ([ClickExportData; ClickStartExport 1000 1001] ++ demo_ticks));
      [constructor|vm_compute; reflexivity]. }
  assert (demo_request ∈ exportRequests demo_completed) as Hin.
  { vm_compute. constructor. }
  split; [exact Hr|]. split; [exact Hin|].
  exact (export_requests_invariant demo_completed demo_request Hr Hin).
Defined.

Lemma handleExport_empty_parameters_witness :
  selectedParameters demo_no_parameters = [] ∧
  exportRequests (handleExport 1000 1001 demo_no_parameters) =
    exportRequests demo_no_parameters ∧
  running (handleExport 1000 1001 demo_no_parameters) =
    running demo_no_parameters.
Proof.
  assert (selectedParameters demo_no_parameters = []) as Hnil
    by (vm_compute; reflexivity).
  split; [exact Hnil|].
  destruct (handleExport_empty_parameters demo_no_parameters 1000 1001 Hnil)
    as (_ & Hreq & Hrun & _).
  split; [exact Hreq|exact Hrun].
Defined.


Lemma export_completes_in_11_ticks_witness :
  reachable demo_open ∧
  step demo_open (ClickStartExport 1000 1001) = Some demo_started ∧
  run demo_started demo_ticks = Some demo_completed ∧
  ∃ r, exportRequests demo_completed = [r] ∧
       status r = completed ∧ progress r = 100.
Proof.
  assert (reachable demo_open) as Hr.
  { apply (reachable_step init ClickExportData); [constructor|reflexivity]. }
  assert (step demo_open (ClickStartExport 1000 1001) = Some demo_started)
    as Hstep by reflexivity.
  assert (run demo_started demo_ticks = Some demo_completed) as Hrun
    by (vm_compute; reflexivity).
  split; [exact Hr|]. split; [exact Hstep|]. split; [exact Hrun|].
  destruct (export_completes_in_11_ticks demo_open 1000 1001 demo_started
              demo_ticks demo_completed Hr Hstep Hrun)
    as (_ & r & Hreq & _ & _ & _ & H11 & _).
  exists r. split; [exact Hreq|].
  destruct (H11 eq_refl) as (Hs & Hp & _). split; [exact Hs|exact Hp].
Defined.

Lemma isExporting_latches_witness :
  step demo_open (ClickStartExport 1000 1001) = Some demo_started ∧
  run demo_started [ClickExportData; ClickParameter "ph"] =
    Some (handleParameterToggle "ph" (setIsOpen true demo_started)) ∧
  isExporting (handleParameterToggle "ph" (setIsOpen true demo_started)) = true ∧
  step (handleParameterToggle "ph" (setIsOpen true demo_started))
    (ClickStartExport 3000 3001) = None.
Proof.
  assert (step demo_open (ClickStartExport 1000 1001) = Some demo_started)
    as Hstep by reflexivity.
  assert (run demo_started [ClickExportData; ClickParameter "ph"] =
            Some (handleParameterToggle "ph" (setIsOpen true demo_started)))
    as Hrun by reflexivity.
  split; [exact Hstep|]. split; [exact Hrun|].
  destruct (isExporting_latches demo_open 1000 1001 demo_started
              [ClickExportData; ClickParameter "ph"] _ Hstep Hrun)
    as (_ & Hex & _ & Hno & _).
  split; [exact Hex|exact (Hno 3000 3001)].
Defined.

(** ** The parameter selection *)

Lemma handleParameterToggle_selection p st :
  selectedParameters (handleParameterToggle p st) =
    if bool_decide (p ∈@{list string} selectedParameters st)
    then filter (λ q, q ≠ p) (selectedParameters st)
    else selectedParameters st ++ [p].
Proof. done. Qed.

Lemma step_selection st e st' :
  step st e = Some st' →
  selectedParameters st' = selectedParameters st ∨
  ∃ p, p ∈@{list string} parameterIds ∧ e = ClickParameter p ∧
       st' = handleParameterToggle p st.
Proof.
  intros Hstep. destruct e; simpl in Hstep;
    try (repeat case_match; simplify_eq; by left).
  - case_match eqn:Hen; [|done]. simplify_eq. right. exists p.
    apply andb_true_iff in Hen as [_ Hp]. by apply bool_decide_eq_true in Hp.
  - case_match eqn:Hen; [|done]. simplify_eq. left.
    unfold handleExport. by case_bool_decide.
  - destruct (running st !! i); [|done]. case_bool_decide; [|done].
    unfold simulateExport_resume in Hstep. case_bool_decide; simplify_eq; by left.
Qed.

(** The selection never holds a parameter twice and holds only ids of the
    parameter table, so it has at most six entries. *)
Theorem selection_has_no_duplicates st :
  reachable st →
  NoDup (selectedParameters st) ∧
  selectedParameters st ⊆ parameterIds ∧
  (length (selectedParameters st) ≤ 6)%nat.
Proof.
  intros Hr.
  assert (NoDup (selectedParameters st) ∧ selectedParameters st ⊆ parameterIds)
    as [Hnd Hsub].
  { induction Hr as [|st e st' _ [IHnd IHsub] Hstep].
    - split; [by apply (bool_decide_unpack _)|].
      by apply (bool_decide_unpack _).
    - destruct (step_selection _ _ _ Hstep) as [->|(p & Hp & _ & ->)]; [done|].
      rewrite handleParameterToggle_selection. case_bool_decide as Hin.
      + split; [by apply NoDup_filter|].
        intros x Hx. apply list_elem_of_filter in Hx as [_ Hx]. by apply IHsub.
      + split.
        * apply NoDup_app. split_and!; [done| |apply NoDup_singleton].
          intros x Hx Hx'. apply list_elem_of_singleton in Hx' as ->. done.
        * intros x Hx. apply elem_of_app in Hx as [Hx|Hx]; [by apply IHsub|].
          by apply list_elem_of_singleton in Hx as ->. }
  split; [done|]. split; [done|].
  assert (NoDup parameterIds) as Hnd' by (by apply (bool_decide_unpack _)).
  by apply (submseteq_length _ parameterIds), NoDup_submseteq.
Qed.

(** Toggling a parameter twice: an unselected parameter is added at the end
    and removed again, which gives the selection back; a selected one is
    removed and added at the end, which gives the same parameters with this
    one last. *)
Theorem toggle_twice p st :
  NoDup (selectedParameters st) →
  (p ∉ selectedParameters st →
     selectedParameters (handleParameterToggle p (handleParameterToggle p st)) =
       selectedParameters st) ∧
  (p ∈ selectedParameters st →
     selectedParameters (handleParameterToggle p (handleParameterToggle p st)) =
       filter (λ q, q ≠ p) (selectedParameters st) ++ [p] ∧
     selectedParameters (handleParameterToggle p (handleParameterToggle p st))
       ≡ₚ selectedParameters st).
Proof.
  intros Hnd. rewrite !handleParameterToggle_selection.
  generalize dependent (selectedParameters st). intros l Hnd. split.
  - intros Hnot. rewrite (bool_decide_false (p ∈ l)) by done.
    rewrite bool_decide_true by set_solver.
    rewrite filter_app, filter_cons_False, filter_nil, app_nil_r by naive_solver.
    clear Hnd. induction l as [|x l IH]; [done|].
    apply not_elem_of_cons in Hnot as [Hne Hnot].
    rewrite filter_cons_True by done. by rewrite IH.
  - intros Hin. rewrite (bool_decide_true (p ∈ l)) by done.
    rewrite bool_decide_false; last first.
    { intros Hp. apply list_elem_of_filter in Hp as [Hp _]. done. }
    split; [done|].
    induction l as [|x l IH]; [by apply elem_of_nil in Hin|].
    apply NoDup_cons in Hnd as [Hx Hnd].
    destruct (decide (x = p)) as [->|Hne].
    + rewrite filter_cons_False by naive_solver.
      assert (filter (λ q, q ≠ p) l = l) as ->.
      { clear IH Hnd Hin. induction l as [|y l IH]; [done|].
        apply not_elem_of_cons in Hx as [Hne Hx].
        rewrite filter_cons_True by done. by rewrite IH. }
      by rewrite Permutation_app_comm.
    + rewrite filter_cons_True by done. simpl. f_equiv. apply IH; [done|].
      apply elem_of_cons in Hin as [Heq|Hin]; [congruence|done].
Qed.

(** ** The size text *)

Lemma tenths_nearest num den :
  0 < den → 2 * Z.abs (10 * num - tenths num den * den) ≤ den.
Proof.
  intros Hden. unfold tenths.
  pose proof (Z.div_mod (20 * num + den) (2 * den)) as Hdm.
  pose proof (Z.mod_pos_bound (20 * num + den) (2 * den)) as Hmod.
  lia.
Qed.

Lemma tenths_bounds num den lo hi :
  0 < den → (2 * lo - 1) * den ≤ 20 * num → 20 * num < (2 * hi + 1) * den →
  lo ≤ tenths num den ≤ hi.
Proof.
  intros Hden Hlo Hhi. unfold tenths. split.
  - apply Z.div_le_lower_bound; lia.
  - apply Z.lt_succ_r, Z.div_lt_upper_bound; lia.
Qed.

(** For an integer size from 1024 bytes to below 2^53 bytes, the range in
    which the quotients are exact and [toFixed] prints plain digits, the
    text is a number with one decimal and a unit. The unit is the largest of
    KB, MB, GB that is at most the size; the number is the size in that unit
    rounded to the nearest tenth (so it is off by at most 0.05); it is at
    least 1.0, for KB and MB at most 1024.0, and for GB at most 8388608.0. *)
Theorem formatFileSize_nearest_tenth bytes :
  1024 ≤ bytes < 9007199254740992 →
  ∃ unit suffix n,
    (unit, suffix) ∈ [(1024, " KB"); (1024 * 1024, " MB");
                      (1024 * 1024 * 1024, " GB")] ∧
    formatFileSize bytes =
      (pretty (n / 10) +:+ "." +:+ pretty (n mod 10)) +:+ suffix ∧
    unit ≤ bytes ∧
    (suffix ≠ " GB" → bytes < 1024 * unit) ∧
    2 * Z.abs (10 * bytes - n * unit) ≤ unit ∧
    10 ≤ n ∧
    (suffix ≠ " GB" → n ≤ 10240) ∧
    n ≤ 83886080.
Proof.
  intros Hb. unfold formatFileSize. rewrite bool_decide_false by lia.
  case_bool_decide as H1; [|case_bool_decide as H2].
  - exists 1024, " KB", (tenths bytes 1024).
    pose proof (tenths_nearest bytes 1024).
    pose proof (tenths_bounds bytes 1024 10 10240).
    split_and!; try done; try lia. left.
  - exists (1024 * 1024), " MB", (tenths bytes (1024 * 1024)).
    pose proof (tenths_nearest bytes (1024 * 1024)).
    pose proof (tenths_bounds bytes (1024 * 1024) 10 10240).
    split_and!; try done; try lia. right; left.
  - exists (1024 * 1024 * 1024), " GB", (tenths bytes (1024 * 1024 * 1024)).
    pose proof (tenths_nearest bytes (1024 * 1024 * 1024)).
    pose proof (tenths_bounds bytes (1024 * 1024 * 1024) 10 83886080).
    split_and!; try done; try lia. right; right; left.
Qed.

(** Just below a unit the text does not switch to the next unit: the last
    51 byte counts below 1 MB read ["1024.0 KB"], and the last 52428 byte
    counts below 1 GB read ["1024.0 MB"]. *)
Theorem formatFileSize_below_next_unit bytes :
  (1048525 ≤ bytes < 1048576 → formatFileSize bytes = "1024.0 KB") ∧
  (1073689396 ≤ bytes < 1073741824 → formatFileSize bytes = "1024.0 MB").
Proof.
  unfold formatFileSize, toFixed1. split; intros Hb.
  - rewrite bool_decide_false, bool_decide_true by lia.
    assert (tenths bytes 1024 = 10240) as ->; [|done].
    pose proof (tenths_bounds bytes 1024 10240 10240). lia.
  - do 2 rewrite bool_decide_false by lia. rewrite bool_decide_true by lia.
    assert (tenths bytes (1024 * 1024) = 10240) as ->; [|done].
    pose proof (tenths_bounds bytes (1024 * 1024) 10240 10240). lia.
Qed.

(** ** What the export history shows *)

(** In every reachable state a row of the history is of one of two kinds.
    A request that is not completed shows its progress, one of 0%, 10%, ...,
    90%, as text and (while processing) as the width of the progress bar,
    and has no download button. A completed request shows no progress bar
    but a download button and the size text of a size between 1000000 and
    50999999 bytes. No row shows 100%. *)
Theorem rows_of_reachable_states st r :
  reachable st → r ∈ exportRequests st →
  (status r ≠ completed ∧ hasDownloadButton r = false ∧
   ∃ k, 0 ≤ k ≤ 9 ∧ progress r = 10 * k ∧
        rowText r = pretty (10 * k) +:+ "%" ∧
        progressBarWidth r =
          if decide (status r = processing)
          then Some (pretty (10 * k) +:+ "%") else None) ∨
  (status r = completed ∧ hasDownloadButton r = true ∧
   progressBarWidth r = None ∧
   ∃ sz, 1000000 ≤ sz < 51000000 ∧ rowText r = formatFileSize sz).
Proof.
  intros Hr Hin.
  destruct (reachable_cases st Hr) as [(_ & Hnil & _)|(r0 & n & Hph)].
  { rewrite Hnil in Hin. by apply elem_of_nil in Hin. }
  destruct Hph as (_ & r' & Hreq & _ & Hjob & _).
  rewrite Hreq in Hin. apply list_elem_of_singleton in Hin as ->.
  unfold rowText, hasDownloadButton, progressBarWidth.
  destruct n as [|k]; simpl in Hjob.
  - destruct Hjob as (Hs & Hp & Hc & Hd & Hf). rewrite Hs, Hp, Hd, Hf.
    left. split_and!; [done..|]. exists 0. by split_and!.
  - destruct (decide (k < 10)%nat) as [Hk|Hk].
    + destruct Hjob as (Hs & Hp & Hc & Hd & Hf). rewrite Hs, Hp, Hd, Hf.
      left. split_and!; [done..|]. exists (Z.of_nat k).
      split_and!; [lia|lia|done..].
    + destruct Hjob as (_ & Hs & Hp & Hc & Hd & sz & Hf & Hsz).
      rewrite Hs, Hd, Hf. right. split_and!; [done..|].
      exists sz. split; [done|].
      rewrite bool_decide_true by done. by rewrite bool_decide_false by lia.
Qed.

(** The history never has more than one entry: it is empty exactly while
    [isExporting] is unset, and at most one call of [simulateExport] is
    waiting for its timer. *)
Theorem at_most_one_request st :
  reachable st →
  (length (exportRequests st) ≤ 1)%nat ∧
  (length (running st) ≤ 1)%nat ∧
  (isExporting st = false ↔ exportRequests st = []).
Proof.
  intros Hr.
  destruct (reachable_cases st Hr) as [(Hex & Hnil & Hrun)|(r0 & n & Hph)].
  - rewrite Hex, Hnil, Hrun. simpl. split_and!; [lia|lia|done].
  - destruct Hph as (Hex & r & Hreq & _ & _ & Hrun).
    rewrite Hex, Hreq, Hrun. unfold phase_running. split_and!.
    + simpl. lia.
    + case_decide; simpl; lia.
    + done.
Qed.

(** A request keeps what was selected when Start Export was clicked: its
    format, parameters, time range, region and creation date are those of
    the click, whatever is selected or toggled in the dialog afterwards. *)
Theorem request_keeps_selection st now date st1 tr st2 :
  reachable st →
  step st (ClickStartExport now date) = Some st1 →
  run st1 tr = Some st2 →
  ∃ r, exportRequests st2 = [r] ∧
       format r = selectedFormat st ∧
       parameters r = selectedParameters st ∧
       timeRange r = selTimeRange st ∧
       region r = selRegion st ∧
       createdAt r = date.
Proof.
  intros Hr Hstep Hrun.
  pose proof (step_accepted_idle _ _ _ _ Hr Hstep) as Hph0.
  destruct (run_phase _ _ _ _ _ Hph0 Hrun)
    as (_ & r & Hreq & (_ & ? & ? & ? & ? & ?) & _).
  exists r. by split_and!.
Qed.

(** ** The toasts *)

Lemma step_phase_toasts r0 n st e st' :
  phase r0 n st → step st e = Some st' →
  toasts st = expected_toasts n → toasts st' = expected_toasts (n + ticks e).
Proof.
  intros (Hex & r & Hreq & Hsame & Hjob & Hrun) Hstep Ht.
  pose proof (phase_job_bound _ _ Hjob) as Hn.
  destruct e; simpl in Hstep; rewrite ?Nat.add_0_r;
    try (repeat case_match; by simplify_eq).
  - unfold startExportDisabled in Hstep. rewrite Hex in Hstep. simpl in Hstep.
    by rewrite andb_false_r in Hstep.
  - rewrite Hrun in Hstep. unfold phase_running in Hstep.
    destruct (decide (n ≤ 10)%nat) as [Hn'|Hn']; [|done].
    destruct i as [|i]; [|done]. simpl in Hstep.
    case_bool_decide as Hrnd; [|done].
    unfold simulateExport_resume in Hstep. simpl in Hstep.
    case_bool_decide as Hp; simplify_eq; simpl; rewrite Ht; unfold expected_toasts.
    + rewrite !decide_False by lia. done.
    + rewrite decide_False by lia. rewrite decide_True by lia. done.
Qed.

Lemma reachable_toasts st :
  reachable st →
  (idle st ∧ toasts st = []) ∨
  ∃ r0 n, phase r0 n st ∧ toasts st = expected_toasts n.
Proof.
  induction 1 as [|st e st' _ IH Hstep].
  - by left.
  - destruct IH as [[Hidle Ht]|(r0 & n & Hph & Ht)].
    + destruct (step_idle _ _ _ Hidle Hstep) as [Hidle'|(now & date & -> & Hph)].
      * left. split; [done|]. rewrite <-Ht.
        destruct Hidle as (Hex & _ & Hrun).
        destruct e; simpl in Hstep; try (repeat case_match; by simplify_eq).
        -- case_match eqn:Hen; [|done]. simplify_eq. exfalso.
           destruct Hidle' as (Hex' & _). unfold handleExport in Hex'.
           case_bool_decide as Hlen; [|done].
           unfold startExportDisabled in Hen.
           rewrite bool_decide_true in Hen by done.
           by rewrite orb_true_r, andb_false_r in Hen.
        -- by rewrite Hrun in Hstep.
      * right. eexists _, 0%nat. split; [done|].
        simpl in Hstep. case_match eqn:Hen; [|done]. simplify_eq.
        unfold handleExport. case_bool_decide as Hlen.
        { unfold startExportDisabled in Hen.
          rewrite bool_decide_true in Hen by done.
          by rewrite orb_true_r, andb_false_r in Hen. }
        simpl. by rewrite Ht.
    + right. exists r0, (n + ticks e)%nat.
      split; [by eapply step_phase|by eapply step_phase_toasts].
Qed.

(** The toasts shown so far are: none before the first export, then
    'Export started', and 'Export completed!' from the moment the request
    is completed. The error toast of [handleExport] is never shown: with an
    empty selection the button that calls the handler is disabled. *)
Theorem toasts_of_reachable_states st :
  reachable st →
  (∀ msg, toast_error msg ∉ toasts st) ∧
  ((exportRequests st = [] ∧ toasts st = []) ∨
   (∃ r, exportRequests st = [r] ∧ status r ≠ completed ∧
         toasts st = [toast_success "Export started"]) ∨
   (∃ r, exportRequests st = [r] ∧ status r = completed ∧
         toasts st = [toast_success "Export started";
                      toast_success "Export completed!"])).
Proof.
  intros Hr.
  assert ((exportRequests st = [] ∧ toasts st = []) ∨
   (∃ r, exportRequests st = [r] ∧ status r ≠ completed ∧
         toasts st = [toast_success "Export started"]) ∨
   (∃ r, exportRequests st = [r] ∧ status r = completed ∧
         toasts st = [toast_success "Export started";
                      toast_success "Export completed!"])) as Hcases.
  { destruct (reachable_toasts st Hr) as [[(_ & Hnil & _) Ht]|(r0 & n & Hph & Ht)].
    { by left. }
    right. destruct Hph as (_ & r & Hreq & _ & Hjob & _).
    pose proof (phase_job_bound _ _ Hjob) as Hn.
    rewrite Ht. unfold expected_toasts.
    destruct (decide (n = 11%nat)) as [->|Hne].
    - right. exists r. split; [done|]. simpl in Hjob. by destruct Hjob as (_ & ? & _).
    - left. exists r. split; [done|]. split; [|done].
      destruct n as [|k]; simpl in Hjob.
      + destruct Hjob as (-> & _). done.
      + rewrite decide_True in Hjob by lia. destruct Hjob as (-> & _). done. }
  split; [|done]. intros msg Hin.
  destruct Hcases as [(_ & Ht)|[(r & _ & _ & Ht)|(r & _ & _ & Ht)]];
    rewrite Ht in Hin;
    repeat (apply elem_of_cons in Hin as [Hin|Hin]; [discriminate Hin|]);
    by apply elem_of_nil in Hin.
Qed.

(** ** Worked runs, continued *)

Lemma demo_completed_reachable : reachable demo_completed.
Proof.
  apply (run_reachable init
           ([ClickExportData; ClickStartExport 1000 1001] ++ demo_ticks));
    [constructor|vm_compute; reflexivity].
Qed.

Lemma selection_has_no_duplicates_witness :
  reachable demo_completed ∧ NoDup (selectedParameters demo_completed).
Proof.
  split; [exact demo_completed_reachable|].
  exact (proj1 (selection_has_no_duplicates demo_completed
                  demo_completed_reachable)).
Defined.

Lemma toggle_twice_witness :
  NoDup (selectedParameters init) ∧
  ("ph" ∉ selectedParameters init) ∧
  selectedParameters (handleParameterToggle "ph" (handleParameterToggle "ph" init))
    = selectedParameters init.
Proof.
  assert (NoDup (selectedParameters init)) as Hnd
    by (by apply (bool_decide_unpack _)).
  assert ("ph" ∉ selectedParameters init) as Hnot
    by (by apply (bool_decide_unpack _)).
  split; [exact Hnd|]. split; [exact Hnot|].
  exact (proj1 (toggle_twice "ph" init Hnd) Hnot).
Defined.

Lemma formatFileSize_nearest_tenth_witness :
  1024 ≤ 1000005 < 9007199254740992 ∧
  ∃ n suffix, formatFileSize 1000005 =
                (pretty (n / 10) +:+ "." +:+ pretty (n mod 10)) +:+ suffix ∧
              10 ≤ n.
Proof.
  assert (1024 ≤ 1000005 < 9007199254740992) as Hb by lia.
  split; [exact Hb|].
  destruct (formatFileSize_nearest_tenth 1000005 Hb)
    as (unit & suffix & n & _ & Heq & _ & _ & _ & Hn & _).
  exists n, suffix. split; [exact Heq|exact Hn].
Defined.

Lemma formatFileSize_below_next_unit_witness :
  1048525 ≤ 1048575 < 1048576 ∧ formatFileSize 1048575 = "1024.0 KB".
Proof.
  assert (1048525 ≤ 1048575 < 1048576) as Hb by lia.
  split; [exact Hb|].
  exact (proj1 (formatFileSize_below_next_unit 1048575) Hb).
Defined.

Lemma rows_of_reachable_states_witness :
  reachable demo_completed ∧
  demo_request ∈ exportRequests demo_completed ∧
  hasDownloadButton demo_request = true.
Proof.
  assert (demo_request ∈ exportRequests demo_completed) as Hin
    by (vm_compute; constructor).
  split; [exact demo_completed_reachable|]. split; [exact Hin|].
  destruct (rows_of_reachable_states demo_completed demo_request
              demo_completed_reachable Hin)
    as [(Hs & _)|(_ & Hb & _)]; [|exact Hb].
  exfalso. apply Hs. reflexivity.
Defined.

Lemma at_most_one_request_witness :
  reachable demo_completed ∧ (length (exportRequests demo_completed) ≤ 1)%nat.
Proof.
  split; [exact demo_completed_reachable|].
  exact (proj1 (at_most_one_request demo_completed demo_completed_reachable)).
Defined.

Lemma request_keeps_selection_witness :
  reachable demo_open ∧
  step demo_open (ClickStartExport 1000 1001) = Some demo_started ∧
  run demo_started demo_ticks = Some demo_completed ∧
  ∃ r, exportRequests demo_completed = [r] ∧
       parameters r = selectedParameters demo_open.
Proof.
  assert (reachable demo_open) as Hr.
  { apply (reachable_step init ClickExportData); [constructor|reflexivity]. }
  assert (step demo_open (ClickStartExport 1000 1001) = Some demo_started)
    as Hstep by reflexivity.
  assert (run demo_started demo_ticks = Some demo_completed) as Hrun
    by (vm_compute; reflexivity).
  split; [exact Hr|]. split; [exact Hstep|]. split; [exact Hrun|].
  destruct (request_keeps_selection demo_open 1000 1001 demo_started
              demo_ticks demo_completed Hr Hstep Hrun)
    as (r & Hreq & _ & Hp & _).
  exists r. split; [exact Hreq|exact Hp].
Defined.

Lemma toasts_of_reachable_states_witness :
  reachable demo_completed ∧
  ∀ msg, toast_error msg ∉ toasts demo_completed.
Proof.
  split; [exact demo_completed_reachable|].
  exact (proj1 (toasts_of_reachable_states demo_completed
                  demo_completed_reachable)).
Defined.

End DataExportFacts.

(** * Facts about the live update feed *)
Module RealTimeUpdatesFacts.
Import RealTimeUpdates.

(** ** Spreading a partial update over the statistics *)

Lemma lookup_last_None {A} k (kvs : list (string * A)) :
  lookup_last k kvs = None ↔ k ∉ kvs.*1.
Proof.
  induction kvs as [|[k' v] rest IH]; simpl.
  - split; [intros _; apply not_elem_of_nil|done].
  - rewrite not_elem_of_cons. destruct (lookup_last k rest) as [w|].
    + split; [done|]. intros [_ Hnot]. by apply IH in Hnot.
    + case_decide; [|tauto]. split; [done|]. by intros [? _].
Qed.

Lemma lookup_last_is_Some {A} k (kvs : list (string * A)) :
  is_Some (lookup_last k kvs) ↔ k ∈ kvs.*1.
Proof.
  rewrite <-not_eq_None_Some, lookup_last_None.
  split; [apply dec_stable|by intros ? ?].
Qed.

Lemma spread_over_lookup prev s k :
  spread_over prev s !! k =
    match lookup_last k (spread_props s) with
    | Some v => Some (SJson v)
    | None => prev !! k
    end.
Proof.
  unfold spread_over. generalize (spread_props s). intros kvs. revert prev.
  induction kvs as [|[k' v] rest IH]; intros prev; simpl; [done|].
  rewrite IH. destruct (lookup_last k rest); [done|].
  case_decide as Hk.
  - subst. by rewrite lookup_insert_eq.
  - by rewrite lookup_insert_ne.
Qed.

(** Unfolds the handlers that are compositions of setters. *)
Ltac unfold_handlers :=
  unfold cleanup, ws_close, clearTimeout, ws_onopen, ws_onclose, ws_onerror,
    connectWebSocket, setTimeout in *;
  simpl in *.

(** ** What [handleRealtimeUpdate] writes *)

Lemma statusToast_cells u st :
  updates (statusToast u st) = updates st ∧
  stats (statusToast u st) = stats st ∧
  isConnected (statusToast u st) = isConnected st ∧
  sockets (statusToast u st) = sockets st ∧
  timers (statusToast u st) = timers st ∧
  lifecycle (statusToast u st) = lifecycle st.
Proof. unfold statusToast. by repeat case_match. Qed.

Lemma handleRealtimeUpdate_is_Some c d st :
  d ≠ JNull → is_Some (handleRealtimeUpdate c d st).
Proof. by destruct d. Qed.

Lemma handleRealtimeUpdate_updates c d st st' :
  handleRealtimeUpdate c d st = Some st' →
  updates st' = take 50 (newUpdate c d :: updates st).
Proof.
  intros H. destruct d; simpl in H; simplify_eq;
    rewrite (proj1 (statusToast_cells _ _)); by repeat case_match.
Qed.

Lemma handleRealtimeUpdate_stats c d s st st' :
  prop "stats" d = Some s → truthy s = true →
  handleRealtimeUpdate c d st = Some st' →
  stats st' = spread_over (stats st) s.
Proof.
  intros Hs Ht H. destruct d; simpl in Hs, H; simplify_eq.
  rewrite (proj1 (proj2 (statusToast_cells _ _))). by rewrite Hs, Ht.
Qed.

Section WithParser.

Variable JSON_parse : string → option Json.

Lemma step_updates_bound st e st' :
  (length (updates st) ≤ 50)%nat → step JSON_parse st e = Some st' →
  (length (updates st') ≤ 50)%nat.
Proof.
  intros Hlen Hstep. destruct e; simpl in Hstep;
    try (unfold_handlers; repeat case_match; by simplify_eq).
  destruct (sockets st !! ws) as [[]|]; simplify_eq.
    unfold ws_onmessage. destruct (JSON_parse raw) as [d|]; [|done].
    destruct (handleRealtimeUpdate c d st) as [st1|] eqn:Hh; [|done].
    rewrite (handleRealtimeUpdate_updates _ _ _ _ Hh), length_take. lia.
Qed.

Lemma reachable_updates_bound st :
  reachable JSON_parse st → (length (updates st) ≤ 50)%nat.
Proof.
  induction 1 as [|st e st' _ IH Hstep]; [simpl; lia|].
  by eapply step_updates_bound.
Qed.

(** ** The update history *)

(** C7. The history holds at most 50 updates in every reachable state. A
    message that parses to a value other than [null] puts its update at the
    front: the new history is the first 50 entries of the new update
    followed by the old history. Below 50 entries nothing is dropped; at 50
    entries exactly the last (oldest) one is dropped and the length stays
    50. *)
Theorem history_keeps_50_newest st ws raw c d st' :
  reachable JSON_parse st →
  JSON_parse raw = Some d → d ≠ JNull →
  step JSON_parse st (SocketMessage ws raw c) = Some st' →
  (length (updates st) ≤ 50)%nat ∧
  (length (updates st') ≤ 50)%nat ∧
  updates st' = take 50 (newUpdate c d :: updates st) ∧
  head (updates st') = Some (newUpdate c d) ∧
  ((length (updates st) < 50)%nat → updates st' = newUpdate c d :: updates st) ∧
  ((length (updates st) = 50)%nat →
     length (updates st') = 50%nat ∧
     ∃ rest oldest, updates st = rest ++ [oldest] ∧
                    updates st' = newUpdate c d :: rest).
Proof.
  intros Hr Hparse Hnull Hstep.
  pose proof (reachable_updates_bound st Hr) as Hlen.
  pose proof (step_updates_bound _ _ _ Hlen Hstep) as Hlen'.
  simpl in Hstep. destruct (sockets st !! ws) as [[]|]; simplify_eq.
  unfold ws_onmessage in *. rewrite Hparse in *.
  destruct (handleRealtimeUpdate_is_Some c d st Hnull) as [st1 Hh].
  rewrite Hh in *. rewrite (handleRealtimeUpdate_updates _ _ _ _ Hh) in *.
  split_and!; try done.
  - intros Hlt. simpl. f_equal. apply take_ge. lia.
  - intros Heq. split; [rewrite length_take; cbn [length]; lia|].
    destruct (updates st) as [|u l] eqn:Hu using rev_ind; [done|].
    exists l, u. split; [done|]. simpl. f_equal.
    rewrite length_app in Heq. simpl in Heq.
    rewrite take_app_le by lia. apply take_ge. lia.
Qed.

(** ** Messages that do not parse *)

(** C8. When [JSON.parse] throws on the payload, the handler catches the
    error, logs it and returns: the history, the statistics, the connection
    flag and every other cell, ref, socket and timer keep their values and
    no toast is shown. The message event itself always yields a next state
    on an open socket. *)
Theorem malformed_message_is_dropped st raw c :
  JSON_parse raw = None →
  ws_onmessage JSON_parse raw c st =
    log (console_error "Error parsing WebSocket message:") st ∧
  updates (ws_onmessage JSON_parse raw c st) = updates st ∧
  stats (ws_onmessage JSON_parse raw c st) = stats st ∧
  isConnected (ws_onmessage JSON_parse raw c st) = isConnected st ∧
  lastUpdate (ws_onmessage JSON_parse raw c st) = lastUpdate st ∧
  toasts (ws_onmessage JSON_parse raw c st) = toasts st ∧
  wsRef (ws_onmessage JSON_parse raw c st) = wsRef st ∧
  reconnectTimeoutRef (ws_onmessage JSON_parse raw c st) = reconnectTimeoutRef st ∧
  sockets (ws_onmessage JSON_parse raw c st) = sockets st ∧
  timers (ws_onmessage JSON_parse raw c st) = timers st ∧
  (∀ ws, sockets st !! ws = Some OPEN →
     step JSON_parse st (SocketMessage ws raw c) =
       Some (log (console_error "Error parsing WebSocket message:") st)).
Proof.
  intros Hparse. unfold ws_onmessage. rewrite Hparse. split_and!; try done.
  intros ws Hws. simpl. rewrite Hws. unfold ws_onmessage. by rewrite Hparse.
Qed.

(** The value [null] parses, but reading its properties throws inside the
    same [try]: it is dropped in the same way. *)
Lemma null_message_is_dropped st raw c :
  JSON_parse raw = Some JNull →
  ws_onmessage JSON_parse raw c st =
    log (console_error "Error parsing WebSocket message:") st.
Proof. intros Hparse. unfold ws_onmessage. by rewrite Hparse. Qed.

End WithParser.

(** ** The statistics *)


(** ** connectWebSocket *)

(** C3, as the code has it. [connectWebSocket] has no guard. When the
    current socket is connecting or open and the constructor returns, the
    call creates one more socket, in state [CONNECTING], and makes it the
    current one; the earlier socket is neither closed nor changed. The
    connection flag, the history, the statistics, the timers and the
    reconnect ref keep their values. *)
Theorem connectWebSocket_opens_another st ws :
  wsRef st = Some ws →
  sockets st !! ws = Some CONNECTING ∨ sockets st !! ws = Some OPEN →
  sockets (connectWebSocket true st) = sockets st ++ [CONNECTING] ∧
  wsRef (connectWebSocket true st) = Some (length (sockets st)) ∧
  wsRef (connectWebSocket true st) ≠ Some ws ∧
  sockets (connectWebSocket true st) !! ws = sockets st !! ws ∧
  isConnected (connectWebSocket true st) = isConnected st ∧
  updates (connectWebSocket true st) = updates st ∧
  stats (connectWebSocket true st) = stats st ∧
  lastUpdate (connectWebSocket true st) = lastUpdate st ∧
  timers (connectWebSocket true st) = timers st ∧
  reconnectTimeoutRef (connectWebSocket true st) = reconnectTimeoutRef st.
Proof.
  intros Href Hws. simpl.
  assert (ws < length (sockets st))%nat as Hlt.
  { destruct Hws as [Hws|Hws]; by apply lookup_lt_Some in Hws. }
  split_and!; try done.
  - intros [= Heq]. lia.
  - by apply lookup_app_l.
Qed.

(** C3, as stated, fails: in a connected state, with an open current
    socket, [connectWebSocket] changes the state and opens a second
    connection. *)
Lemma connect_while_connected_is_no_noop :
  isConnected demo_connected = true ∧
  wsRef demo_connected = Some 0%nat ∧
  sockets demo_connected = [OPEN] ∧
  connectWebSocket true demo_connected ≠ demo_connected ∧
  sockets (connectWebSocket true demo_connected) = [OPEN; CONNECTING] ∧
  step demo_parse demo_connected (ClickRefresh true) =
    Some (connectWebSocket true demo_connected).
Proof.
  split_and!; try reflexivity.
  intros Heq. apply (f_equal sockets) in Heq. discriminate Heq.
Qed.

(** ** The cleanup of the component and the reconnect timer *)

(** When the current socket is still connecting or open, the cleanup only
    starts closing it; the close event comes afterwards and its handler arms
    a new timer, which nothing cancels; when it fires, a new socket is
    constructed. *)
Lemma cleanup_then_close_reconnects JSON_parse st ws :
  lifecycle st = Mounted →
  wsRef st = Some ws →
  sockets st !! ws = Some CONNECTING ∨ sockets st !! ws = Some OPEN →
  ∃ st1 st2 st3,
    step JSON_parse st Unmount = Some st1 ∧
    step JSON_parse st1 (SocketClose ws) = Some st2 ∧
    timers st2 !! length (timers st) = Some Pending ∧
    step JSON_parse st2 (TimerFired (length (timers st)) true) = Some st3 ∧
    lifecycle st3 = Unmounted ∧
    sockets st3 = <[ws := CLOSED]> (sockets st) ++ [CONNECTING].
Proof.
  intros Hlife Href Hws.
  assert (ws < length (sockets st))%nat as Hlt.
  { destruct Hws as [Hws|Hws]; by apply lookup_lt_Some in Hws. }
  assert (sockets (cleanup (set_lifecycle Unmounted st)) = <[ws := CLOSING]> (sockets st)
          ∧ length (timers (cleanup (set_lifecycle Unmounted st))) = length (timers st)
          ∧ lifecycle (cleanup (set_lifecycle Unmounted st)) = Unmounted)
    as (Hsock & Htim & Hlife').
  { unfold cleanup, ws_close, clearTimeout. simpl. rewrite Href.
    destruct Hws as [-> | ->]; simpl;
      repeat case_match; simpl; by rewrite ?length_insert. }
  eexists _, _, _. split; [simpl; by rewrite Hlife|].
  split.
  { simpl. rewrite Hsock, list_lookup_insert_eq by done. done. }
  unfold ws_onclose, setTimeout. simpl. rewrite Htim.
  assert ((timers (cleanup (set_lifecycle Unmounted st)) ++ [Pending])
            !! length (timers st) = Some Pending) as Hpend
    by (by apply list_lookup_middle).
  rewrite Hpend. split; [done|]. split; [done|]. simpl.
  split; [done|]. by rewrite Hsock, list_insert_insert_eq.
Qed.

(** A timer that is pending when the component is unmounted, with no
    socket left to close, is cancelled by the cleanup. *)
Lemma cleanup_cancels_pending_timer st ws t :
  wsRef st = Some ws → sockets st !! ws = Some CLOSED →
  reconnectTimeoutRef st = Some t → timers st !! t = Some Pending →
  timers (cleanup st) = <[t := Cleared]> (timers st) ∧
  sockets (cleanup st) = sockets st.
Proof.
  intros Href Hws Ht Hp. unfold cleanup, ws_close. rewrite Href, Hws, Ht.
  unfold clearTimeout. by rewrite Hp.
Qed.

(** C2: the run that the claim excludes. The component is mounted, its
    socket opens, the component is unmounted (the cleanup closes the socket
    and finds no timer to cancel), the close event arrives and its handler
    arms the 5 s timer, the timer fires: a second socket is constructed
    while the component is unmounted. *)
Theorem reconnect_after_cleanup :
  sockets <$> run demo_parse (init 0 0) [Mount true; SocketOpen 0; Unmount]
    = Some [CLOSING] ∧
  timers <$> run demo_parse (init 0 0) [Mount true; SocketOpen 0; Unmount]
    = Some [] ∧
  timers <$> run demo_parse (init 0 0)
      [Mount true; SocketOpen 0; Unmount; SocketClose 0]
    = Some [Pending] ∧
  sockets <$> run demo_parse (init 0 0)
      [Mount true; SocketOpen 0; Unmount; SocketClose 0; TimerFired 0 true]
    = Some [CLOSED; CONNECTING] ∧
  wsRef <$> run demo_parse (init 0 0)
      [Mount true; SocketOpen 0; Unmount; SocketClose 0; TimerFired 0 true]
    = Some (Some 1%nat) ∧
  lifecycle <$> run demo_parse (init 0 0)
      [Mount true; SocketOpen 0; Unmount; SocketClose 0; TimerFired 0 true]
    = Some Unmounted.
Proof. split_and!; vm_compute; reflexivity. Qed.

(** ** Worked runs *)

Lemma feed_run_reachable JSON_parse st tr st' :
  reachable JSON_parse st → run JSON_parse st tr = Some st' →
  reachable JSON_parse st'.
Proof.
  revert st. induction tr as [|e tr IH]; intros st Hr Hrun; simpl in Hrun.
  - by simplify_eq.
  - destruct (step JSON_parse st e) as [st1|] eqn:Hstep; [|done].
    eapply IH; [|done]. by eapply reachable_step.
Qed.

Lemma history_keeps_50_newest_witness :
  reachable demo_parse demo_full ∧
  demo_parse "{}" = Some (JObject []) ∧
  JObject [] ≠ JNull ∧
  step demo_parse demo_full (SocketMessage 0 "{}" (mkClock 7 8 9)) =
    Some (ws_onmessage demo_parse "{}" (mkClock 7 8 9) demo_full) ∧
  length (updates demo_full) = 50%nat ∧
  length (updates (ws_onmessage demo_parse "{}" (mkClock 7 8 9) demo_full)) = 50%nat ∧
  head (updates (ws_onmessage demo_parse "{}" (mkClock 7 8 9) demo_full)) =
    Some (newUpdate (mkClock 7 8 9) (JObject [])).
Proof.
  assert (reachable demo_parse demo_full) as Hr.
  { apply (feed_run_reachable demo_parse (init 0 0) demo_fifty);
      [constructor|vm_compute; reflexivity]. }
  assert (demo_parse "{}" = Some (JObject [])) as Hparse by reflexivity.
  assert (JObject [] ≠ JNull) as Hnull by discriminate.
  assert (step demo_parse demo_full (SocketMessage 0 "{}" (mkClock 7 8 9)) =
            Some (ws_onmessage demo_parse "{}" (mkClock 7 8 9) demo_full))
    as Hstep by (vm_compute; reflexivity).
  assert (length (updates demo_full) = 50%nat) as Hlen
    by (vm_compute; reflexivity).
  split; [exact Hr|]. split; [exact Hparse|]. split; [exact Hnull|].
  split; [exact Hstep|]. split; [exact Hlen|].
  destruct (history_keeps_50_newest demo_parse demo_full 0 "{}" (mkClock 7 8 9)
              (JObject []) _ Hr Hparse Hnull Hstep)
    as (_ & _ & _ & Hhead & _ & Hfull).
  split; [exact (proj1 (Hfull Hlen))|exact Hhead].
Defined.

Lemma malformed_message_is_dropped_witness :
  demo_parse "{type:" = None ∧
  updates (ws_onmessage demo_parse "{type:" demo_clock demo_full) =
    updates demo_full ∧
  stats (ws_onmessage demo_parse "{type:" demo_clock demo_full) =
    stats demo_full.
Proof.
  assert (demo_parse "{type:" = None) as Hparse by reflexivity.
  split; [exact Hparse|].
  destruct (malformed_message_is_dropped demo_parse demo_full "{type:"
              demo_clock Hparse) as (_ & Hu & Hs & _).
  split; [exact Hu|exact Hs].
Defined.


(** The example of C9 as one equation: [{activeEntities: 10}] applied to
    [{activeEntities: 5, total: 20}] gives [{activeEntities: 10, total: 20}]. *)
Example stats_partial_update_example :
  stats <$> handleRealtimeUpdate demo_clock demo_update demo_stats =
  Some (<["activeEntities" := SJson (JNumber 10)]>
        (<["total" := SJson (JNumber 20)]> ∅)).
Proof. vm_compute. reflexivity. Qed.

Lemma connectWebSocket_opens_another_witness :
  wsRef demo_connected = Some 0%nat ∧
  (sockets demo_connected !! 0%nat = Some CONNECTING ∨
   sockets demo_connected !! 0%nat = Some OPEN) ∧
  sockets (connectWebSocket true demo_connected) = [OPEN; CONNECTING] ∧
  wsRef (connectWebSocket true demo_connected) = Some 1%nat.
Proof.
  assert (wsRef demo_connected = Some 0%nat) as Href by reflexivity.
  assert (sockets demo_connected !! 0%nat = Some CONNECTING ∨
          sockets demo_connected !! 0%nat = Some OPEN) as Hws
    by (right; reflexivity).
  split; [exact Href|]. split; [exact Hws|].
  destruct (connectWebSocket_opens_another demo_connected 0 Href Hws)
    as (Hsock & Hnew & _).
  split; [exact Hsock|exact Hnew].
Defined.

(** ** formatTimeAgo *)


(** The chain of tests of [formatTimeAgo], with the nested floors
    written as floors of the age in milliseconds. *)
Lemma formatTimeAgo_by_age (toLocaleDateString : Z → string) now date :
  formatTimeAgo toLocaleDateString now date =
    if bool_decide (now - date < 60000) then
      pretty ((now - date) `div` 1000) +:+ "s ago"
    else if bool_decide (now - date < 3600000) then
      pretty ((now - date) `div` 60000) +:+ "m ago"
    else if bool_decide (now - date < 86400000) then
      pretty ((now - date) `div` 3600000) +:+ "h ago"
    else toLocaleDateString date.
Proof.
  unfold formatTimeAgo. generalize (now - date). intros d.
  assert ((d `div` 1000) `div` 60 = d `div` 60000) as Hm
    by (by rewrite Z.div_div by lia).
  assert (((d `div` 1000) `div` 60) `div` 60 = d `div` 3600000) as Hh
    by (by rewrite !Z.div_div by lia).
  rewrite Hh, Hm.
  repeat case_bool_decide; try done; exfalso; Z.div_mod_to_equations; lia.
Qed.

Lemma collaboration_formatTimeAgo_by_age now date :
  Collaboration.formatTimeAgo now date =
    if bool_decide (now - date < 3600000) then
      pretty ((now - date) `div` 60000) +:+ "m ago"
    else if bool_decide (now - date < 86400000) then
      pretty ((now - date) `div` 3600000) +:+ "h ago"
    else pretty ((now - date) `div` 86400000) +:+ "d ago".
Proof.
  unfold Collaboration.formatTimeAgo. generalize (now - date). intros d.
  assert ((d `div` 60000) `div` 60 = d `div` 3600000) as Hh
    by (by rewrite Z.div_div by lia).
  assert (((d `div` 60000) `div` 60) `div` 24 = d `div` 86400000) as Hd'
    by (by rewrite !Z.div_div by lia).
  rewrite Hd', Hh.
  repeat case_bool_decide; try done; exfalso; Z.div_mod_to_equations; lia.
Qed.




(** The two [formatTimeAgo] of the feed and of the collaboration panel
    give the same text for every age from one minute to one day. *)
Theorem formatTimeAgo_agree (toLocaleDateString : Z → string) now date :
  60000 ≤ now - date < 86400000 →
  formatTimeAgo toLocaleDateString now date =
    Collaboration.formatTimeAgo now date.
Proof.
  intros Hd. rewrite formatTimeAgo_by_age, collaboration_formatTimeAgo_by_age.
  rewrite (bool_decide_false (now - date < 60000)) by lia.
  case_bool_decide; [done|]. by rewrite bool_decide_true by lia.
Qed.

(** ** The statistics object over a run *)

Lemma handleRealtimeUpdate_stats_cases c d st st' :
  handleRealtimeUpdate c d st = Some st' →
  stats st' = stats st ∨
  ∃ s, prop "stats" d = Some s ∧ truthy s = true ∧
       stats st' = spread_over (stats st) s.
Proof.
  intros H. destruct (prop "stats" d) as [s|] eqn:Hs.
  - destruct (truthy s) eqn:Ht.
    + right. exists s. split_and!; [done..|].
      by eapply handleRealtimeUpdate_stats.
    + left. destruct d; simpl in Hs, H; simplify_eq.
      rewrite (proj1 (proj2 (statusToast_cells _ _))). by rewrite Hs, Ht.
  - left. destruct d; simpl in Hs, H; simplify_eq;
      rewrite (proj1 (proj2 (statusToast_cells _ _))); by rewrite ?Hs.
Qed.

Lemma step_stats_cases JSON_parse st e st' :
  step JSON_parse st e = Some st' →
  stats st' = stats st ∨ ∃ s, stats st' = spread_over (stats st) s.
Proof.
  intros Hstep. destruct e; simpl in Hstep;
    try (unfold_handlers; repeat case_match; simplify_eq; by left).
  destruct (sockets st !! ws) as [[]|]; simplify_eq.
  unfold ws_onmessage. destruct (JSON_parse raw) as [d|]; [|by left].
  destruct (handleRealtimeUpdate c d st) as [st1|] eqn:Hh; [|by left].
  destruct (handleRealtimeUpdate_stats_cases _ _ _ _ Hh) as [?|(s & _ & _ & ?)];
    [by left|right; by exists s].
Qed.

Lemma run_stats_keys JSON_parse st tr st' k :
  run JSON_parse st tr = Some st' →
  is_Some (stats st !! k) → is_Some (stats st' !! k).
Proof.
  revert st. induction tr as [|e tr IH]; intros st Hrun Hk; simpl in Hrun.
  - by simplify_eq.
  - destruct (step JSON_parse st e) as [st1|] eqn:Hstep; [|done].
    apply (IH st1); [done|].
    destruct (step_stats_cases _ _ _ _ Hstep) as [->|(s & ->)]; [done|].
    rewrite spread_over_lookup. by destruct (lookup_last k (spread_props s)).
Qed.

Lemma run_stats_json JSON_parse st tr st' k :
  run JSON_parse st tr = Some st' →
  (∃ v, stats st !! k = Some (SJson v)) → ∃ v, stats st' !! k = Some (SJson v).
Proof.
  revert st. induction tr as [|e tr IH]; intros st Hrun Hk; simpl in Hrun.
  - by simplify_eq.
  - destruct (step JSON_parse st e) as [st1|] eqn:Hstep; [|done].
    apply (IH st1); [done|].
    destruct (step_stats_cases _ _ _ _ Hstep) as [->|(s & ->)]; [done|].
    rewrite spread_over_lookup.
    destruct (lookup_last k (spread_props s)) as [w|]; [by exists w|done].
Qed.

(** No message removes a statistic: a name that has a value keeps having
    one through every run, and the four statistics of the first render are
    present in every reachable state. *)
Theorem stats_keys_persist JSON_parse st :
  reachable JSON_parse st →
  (is_Some (stats st !! "totalFloats") ∧ is_Some (stats st !! "activeFloats") ∧
   is_Some (stats st !! "dataPoints") ∧ is_Some (stats st !! "lastSync")) ∧
  (∀ tr st' k, run JSON_parse st tr = Some st' →
     is_Some (stats st !! k) → is_Some (stats st' !! k)).
Proof.
  intros Hr. split; [|intros tr st' k; apply run_stats_keys].
  induction Hr as [t1 t2|st e st' _ IH Hstep].
  - by split_and!.
  - destruct IH as (?&?&?&?).
    split_and!; by apply (run_stats_keys JSON_parse st [e]); simpl; rewrite ?Hstep.
Qed.

(** A message whose statistics name [lastSync] replaces the [Date] of the
    first render by a JSON value. From then on the Last Sync cell cannot be
    rendered (its [formatTimeAgo] throws), and no later message brings a
    [Date] back. *)
Theorem lastSync_update_breaks_cell JSON_parse toLocaleDateString c d s st st' t :
  prop "stats" d = Some s → truthy s = true →
  "lastSync" ∈ (spread_props s).*1 →
  handleRealtimeUpdate c d st = Some st' →
  mounted st = true →
  lastSyncCell toLocaleDateString t st' = None ∧
  ∀ tr st'', run JSON_parse st' tr = Some st'' →
             ∃ v, stats st'' !! "lastSync" = Some (SJson v).
Proof.
  intros Hs Ht Hin Hh Hm.
  assert (∃ v, stats st' !! "lastSync" = Some (SJson v)) as [v Hv].
  { rewrite (handleRealtimeUpdate_stats _ _ _ _ _ Hs Ht Hh), spread_over_lookup.
    apply lookup_last_is_Some in Hin as [v ->]. by exists v. }
  split.
  - unfold lastSyncCell. rewrite Hv.
    assert (mounted st' = true) as ->; [|done].
    destruct d; simpl in Hh; simplify_eq. unfold statusToast.
    by repeat case_match.
  - intros tr st'' Hrun. eapply run_stats_json; [done|by exists v].
Qed.

(** ** The refs and the cleanup *)

Lemma handleRealtimeUpdate_frame c d st st' :
  handleRealtimeUpdate c d st = Some st' →
  wsRef st' = wsRef st ∧ sockets st' = sockets st ∧
  reconnectTimeoutRef st' = reconnectTimeoutRef st ∧ timers st' = timers st ∧
  mounted st' = mounted st ∧ lifecycle st' = lifecycle st ∧
  isConnected st' = isConnected st.
Proof.
  intros H. destruct d; simpl in H; simplify_eq; unfold statusToast;
    by repeat case_match.
Qed.

Lemma ws_onmessage_frame JSON_parse raw c st :
  wsRef (ws_onmessage JSON_parse raw c st) = wsRef st ∧
  sockets (ws_onmessage JSON_parse raw c st) = sockets st ∧
  reconnectTimeoutRef (ws_onmessage JSON_parse raw c st) = reconnectTimeoutRef st ∧
  timers (ws_onmessage JSON_parse raw c st) = timers st ∧
  mounted (ws_onmessage JSON_parse raw c st) = mounted st ∧
  lifecycle (ws_onmessage JSON_parse raw c st) = lifecycle st ∧
  isConnected (ws_onmessage JSON_parse raw c st) = isConnected st.
Proof.
  unfold ws_onmessage. destruct (JSON_parse raw) as [d|]; [|done].
  destruct (handleRealtimeUpdate c d st) as [st1|] eqn:Hh; [|done].
  by apply handleRealtimeUpdate_frame in Hh.
Qed.


Lemma reachable_refs JSON_parse st :
  reachable JSON_parse st →
  newest (sockets st) (wsRef st) ∧ newest (timers st) (reconnectTimeoutRef st).
Proof.
  induction 1 as [t1 t2|st e st' _ [IHs IHt] Hstep]; [done|].
  unfold newest in *.
  destruct e;
    try (destruct st as [ic up lu sts mo wr rr so ti to co li];
         simpl in *; unfold_handlers;
         repeat (case_match; simplify_eq; simpl in * );
         split; simplify_eq/=; rewrite ?length_app, ?length_insert; simpl;
         first [done | lia]).
  simpl in Hstep. destruct (sockets st !! ws) as [[]|]; simplify_eq.
  by destruct (ws_onmessage_frame JSON_parse raw c st) as (-> & -> & -> & -> & _).
Qed.

(** In every reachable state [wsRef] names the socket constructed last and
    [reconnectTimeoutRef] the timer armed last (whether it is still pending
    or not); each is unset exactly while no such object exists. So a ref
    that is set always names an existing socket or timer. *)
Theorem refs_name_newest JSON_parse st :
  reachable JSON_parse st →
  newest (sockets st) (wsRef st) ∧
  newest (timers st) (reconnectTimeoutRef st) ∧
  (∀ ws, wsRef st = Some ws → is_Some (sockets st !! ws)) ∧
  (∀ t, reconnectTimeoutRef st = Some t → is_Some (timers st !! t)).
Proof.
  intros Hr. destruct (reachable_refs _ _ Hr) as [Hs Ht].
  split_and!; [done|done| |].
  - intros ws Hws. rewrite Hws in Hs. simpl in Hs.
    apply lookup_lt_is_Some. lia.
  - intros t Hti. rewrite Hti in Ht. simpl in Ht.
    apply lookup_lt_is_Some. lia.
Qed.

Lemma ws_close_others ws st i :
  i ≠ ws →
  sockets (ws_close ws st) !! i = sockets st !! i ∧
  timers (ws_close ws st) = timers st ∧
  reconnectTimeoutRef (ws_close ws st) = reconnectTimeoutRef st.
Proof.
  intros Hne. unfold ws_close.
  repeat case_match; simpl; by rewrite ?list_lookup_insert_ne.
Qed.

Lemma clearTimeout_others t st i :
  i ≠ t →
  timers (clearTimeout t st) !! i = timers st !! i ∧
  sockets (clearTimeout t st) = sockets st.
Proof.
  intros Hne. unfold clearTimeout.
  repeat case_match; simpl; by rewrite ?list_lookup_insert_ne.
Qed.

(** The cleanup reaches the newest socket and the newest timer only: every
    earlier socket keeps its state (an open one stays open) and every
    earlier timer keeps its state (a pending one will fire). *)
Theorem cleanup_reaches_only_newest JSON_parse st st' :
  reachable JSON_parse st →
  step JSON_parse st Unmount = Some st' →
  (∀ i, (S i < length (sockets st))%nat → sockets st' !! i = sockets st !! i) ∧
  (∀ t, (S t < length (timers st))%nat → timers st' !! t = timers st !! t).
Proof.
  intros Hr Hstep. destruct (reachable_refs _ _ Hr) as [Hs Ht].
  simpl in Hstep. destruct (lifecycle st); simplify_eq.
  unfold newest in *. unfold cleanup.
  change (wsRef (set_lifecycle Unmounted st)) with (wsRef st).
  split.
  - intros i Hi. destruct (wsRef st) as [ws|].
    + destruct (ws_close_others ws (set_lifecycle Unmounted st) i) as (Hi' & _ & Hr');
        [lia|]. rewrite Hr'. simpl.
      destruct (reconnectTimeoutRef st) as [t|]; [|done].
      rewrite (proj2 (clearTimeout_others t _ (S t) (Nat.neq_succ_diag_l t))). done.
    + simpl. destruct (reconnectTimeoutRef st) as [t|]; [|done].
      rewrite (proj2 (clearTimeout_others t _ (S t) (Nat.neq_succ_diag_l t))). done.
  - intros t Hti.
    assert (timers (match wsRef st with
                    | Some ws => ws_close ws (set_lifecycle Unmounted st)
                    | None => set_lifecycle Unmounted st
                    end) = timers st ∧
            reconnectTimeoutRef (match wsRef st with
                    | Some ws => ws_close ws (set_lifecycle Unmounted st)
                    | None => set_lifecycle Unmounted st
                    end) = reconnectTimeoutRef st) as [Htim Href].
    { destruct (wsRef st) as [ws|]; [|done].
      by destruct (ws_close_others ws (set_lifecycle Unmounted st) (S ws))
        as (_ & ? & ?); [lia|]. }
    rewrite Href. destruct (reconnectTimeoutRef st) as [t0|]; [|by rewrite Htim].
    rewrite (proj1 (clearTimeout_others t0 _ t ltac:(lia))). by rewrite Htim.
Qed.

(** The handlers do not look at which socket fired. When a socket other
    than an open one closes, the connection flag is cleared and a reconnect
    timer is armed although the open socket stays open. *)
Theorem close_of_other_socket JSON_parse st ws ws' rs :
  sockets st !! ws = Some OPEN → ws' ≠ ws →
  sockets st !! ws' = Some rs → rs ≠ CLOSED →
  ∃ st', step JSON_parse st (SocketClose ws') = Some st' ∧
         isConnected st' = false ∧
         sockets st' !! ws = Some OPEN ∧
         timers st' = timers st ++ [Pending] ∧
         reconnectTimeoutRef st' = Some (length (timers st)).
Proof.
  intros Hws Hne Hws' Hrs. simpl. rewrite Hws'.
  destruct rs; [| | |done]; eexists; (split; [done|]); simpl;
    by rewrite list_lookup_insert_ne.
Qed.

(** ** Payloads that are not objects *)

(** A payload that parses to a boolean, a number, a string or an array is
    taken as an update without fields: the history gets an entry with the
    default type, message and status and no data, the statistics are
    unchanged, and the default message is shown as a success toast. *)
Theorem non_object_payload_gets_defaults c d st :
  d ≠ JNull → (∀ props, d ≠ JObject props) →
  ∃ st', handleRealtimeUpdate c d st = Some st' ∧
         updates st' = take 50 (defaultUpdate c :: updates st) ∧
         stats st' = stats st ∧
         lastUpdate st' = date2 c ∧
         toasts st' = toasts st ++ [toast_success (JString "Data updated")].
Proof.
  intros Hnull Hobj. destruct d; try done; try (by eexists).
  by destruct (Hobj props).
Qed.

(** ** Reconnecting *)

Lemma run_app JSON_parse st tr1 tr2 :
  run JSON_parse st (tr1 ++ tr2) =
    match run JSON_parse st tr1 with
    | Some st' => run JSON_parse st' tr2
    | None => None
    end.
Proof.
  revert st. induction tr1 as [|e tr1 IH]; intros st; simpl; [done|].
  by destruct (step JSON_parse st e).
Qed.

(** There is no limit to the reconnects: for every [n] there is a run of
    the mounted component in which [n] connections were closed one after
    the other, each close armed a timer that fired, and connection number
    [n + 1] is being attempted. *)
Theorem reconnects_without_limit JSON_parse t1 t2 n :
  ∃ tr st, run JSON_parse (init t1 t2) tr = Some st ∧
           lifecycle st = Mounted ∧
           sockets st = replicate n CLOSED ++ [CONNECTING] ∧
           timers st = replicate n Fired.
Proof.
  induction n as [|n (tr & st & Hrun & Hl & Hs & Ht)].
  - exists [Mount true]. by eexists.
  - exists (tr ++ [SocketClose n; TimerFired n true]).
    rewrite run_app, Hrun. simpl.
    assert (sockets st !! n = Some CONNECTING) as Hn.
    { rewrite Hs. by apply list_lookup_middle; rewrite length_replicate. }
    rewrite Hn. unfold ws_onclose, setTimeout. simpl.
    assert ((timers st ++ [Pending]) !! n = Some Pending) as Hp.
    { rewrite Ht. by apply list_lookup_middle; rewrite length_replicate. }
    rewrite Hp. eexists. split; [done|]. simpl. split; [done|]. split.
    + rewrite Hs.
      replace n with (length (replicate n CLOSED) + 0)%nat at 1
        by (rewrite length_replicate; lia).
      rewrite insert_app_r. simpl. by rewrite <-replicate_S_end.
    + rewrite Ht.
      replace n with (length (replicate n Fired) + 0)%nat at 1
        by (rewrite length_replicate; lia).
      rewrite insert_app_r. simpl. by rewrite <-replicate_S_end.
Qed.

(** ** Worked runs, continued *)

Lemma demo_two_sockets_reachable : reachable demo_parse demo_two_sockets.
Proof.
  apply (feed_run_reachable demo_parse (init 0 0)
           [Mount true; SocketOpen 0; ClickRefresh true; SocketOpen 1]);
    [constructor|vm_compute; reflexivity].
Qed.




Lemma formatTimeAgo_agree_witness :
  60000 ≤ 125000 - 0 < 86400000 ∧
  formatTimeAgo demo_locale 125000 0 = Collaboration.formatTimeAgo 125000 0.
Proof.
  assert (60000 ≤ 125000 - 0 < 86400000) as Hd by lia.
  split; [exact Hd|].
  exact (formatTimeAgo_agree demo_locale 125000 0 Hd).
Defined.

Lemma stats_keys_persist_witness :
  reachable demo_parse demo_two_sockets ∧
  is_Some (stats demo_two_sockets !! "lastSync").
Proof.
  split; [exact demo_two_sockets_reachable|].
  destruct (stats_keys_persist demo_parse demo_two_sockets
              demo_two_sockets_reachable) as [(_ & _ & _ & Hk) _].
  exact Hk.
Defined.

Lemma lastSync_update_breaks_cell_witness :
  prop "stats" demo_sync_update =
    Some (JObject [("lastSync", JString "2025-01-01T00:00:00Z")]) ∧
  truthy (JObject [("lastSync", JString "2025-01-01T00:00:00Z")]) = true ∧
  "lastSync" ∈ (spread_props (JObject [("lastSync", JString "2025-01-01T00:00:00Z")])).*1 ∧
  mounted demo_connected = true ∧
  ∃ st', handleRealtimeUpdate demo_clock demo_sync_update demo_connected = Some st' ∧
         lastSyncCell demo_locale 5000 st' = None.
Proof.
  assert (prop "stats" demo_sync_update =
            Some (JObject [("lastSync", JString "2025-01-01T00:00:00Z")]))
    as Hs by reflexivity.
  assert (truthy (JObject [("lastSync", JString "2025-01-01T00:00:00Z")]) = true)
    as Ht by reflexivity.
  assert ("lastSync" ∈
            (spread_props (JObject [("lastSync", JString "2025-01-01T00:00:00Z")])).*1)
    as Hin by (simpl; constructor).
  assert (mounted demo_connected = true) as Hm by reflexivity.
  split; [exact Hs|]. split; [exact Ht|]. split; [exact Hin|]. split; [exact Hm|].
  destruct (handleRealtimeUpdate_is_Some demo_clock demo_sync_update demo_connected)
    as [st' Hh]; [discriminate|].
  exists st'. split; [exact Hh|].
  exact (proj1 (lastSync_update_breaks_cell demo_parse demo_locale demo_clock
                  demo_sync_update _ demo_connected st' 5000 Hs Ht Hin Hh Hm)).
Defined.

Lemma refs_name_newest_witness :
  reachable demo_parse demo_two_sockets ∧
  newest (sockets demo_two_sockets) (wsRef demo_two_sockets).
Proof.
  split; [exact demo_two_sockets_reachable|].
  exact (proj1 (refs_name_newest demo_parse demo_two_sockets
                  demo_two_sockets_reachable)).
Defined.

Lemma cleanup_reaches_only_newest_witness :
  reachable demo_parse demo_two_sockets ∧
  step demo_parse demo_two_sockets Unmount =
    Some (cleanup (set_lifecycle Unmounted demo_two_sockets)) ∧
  sockets (cleanup (set_lifecycle Unmounted demo_two_sockets)) !! 0%nat =
    sockets demo_two_sockets !! 0%nat.
Proof.
  assert (step demo_parse demo_two_sockets Unmount =
            Some (cleanup (set_lifecycle Unmounted demo_two_sockets)))
    as Hstep by reflexivity.
  split; [exact demo_two_sockets_reachable|]. split; [exact Hstep|].
  destruct (cleanup_reaches_only_newest demo_parse demo_two_sockets _
              demo_two_sockets_reachable Hstep) as [Hs _].
  apply Hs. vm_compute. lia.
Defined.

Lemma close_of_other_socket_witness :
  sockets demo_two_sockets !! 1%nat = Some OPEN ∧
  0%nat ≠ 1%nat ∧
  sockets demo_two_sockets !! 0%nat = Some OPEN ∧
  OPEN ≠ CLOSED ∧
  ∃ st', step demo_parse demo_two_sockets (SocketClose 0) = Some st' ∧
         isConnected st' = false ∧ sockets st' !! 1%nat = Some OPEN.
Proof.
  assert (sockets demo_two_sockets !! 1%nat = Some OPEN) as H1 by reflexivity.
  assert (0%nat ≠ 1%nat) as Hne by discriminate.
  assert (sockets demo_two_sockets !! 0%nat = Some OPEN) as H0 by reflexivity.
  assert (OPEN ≠ CLOSED) as Hrs by discriminate.
  split; [exact H1|]. split; [exact Hne|]. split; [exact H0|]. split; [exact Hrs|].
  destruct (close_of_other_socket demo_parse demo_two_sockets 1 0 OPEN
              H1 Hne H0 Hrs) as (st' & Hstep & Hc & Hs & _).
  exists st'. split; [exact Hstep|]. split; [exact Hc|exact Hs].
Defined.

Lemma non_object_payload_gets_defaults_witness :
  JNumber 7 ≠ JNull ∧
  (∀ props, JNumber 7 ≠ JObject props) ∧
  ∃ st', handleRealtimeUpdate demo_clock (JNumber 7) demo_connected = Some st' ∧
         updates st' = [defaultUpdate demo_clock].
Proof.
  assert (JNumber 7 ≠ JNull) as Hn by discriminate.
  assert (∀ props, JNumber 7 ≠ JObject props) as Ho by (intros; discriminate).
  split; [exact Hn|]. split; [exact Ho|].
  destruct (non_object_payload_gets_defaults demo_clock (JNumber 7)
              demo_connected Hn Ho) as (st' & Hh & Hu & _).
  exists st'. split; [exact Hh|]. rewrite Hu. reflexivity.
Defined.

Lemma null_message_is_dropped_witness :
  demo_parse "null" = Some JNull ∧
  ws_onmessage demo_parse "null" demo_clock demo_connected =
    log (console_error "Error parsing WebSocket message:") demo_connected.
Proof.
  assert (demo_parse "null" = Some JNull) as Hp by reflexivity.
  split; [exact Hp|].
  exact (null_message_is_dropped demo_parse demo_connected "null" demo_clock Hp).
Defined.

End RealTimeUpdatesFacts.

(** * Facts about the dashboard *)
Module DashboardFacts.
Import RealTimeUpdates Dashboard.

Section WithFormats.

Variable String_other : Json → string.
Variable dateToLocaleString : Json → string.

#[local] Abbreviation step := (step String_other dateToLocaleString).
#[local] Abbreviation run := (run String_other dateToLocaleString).
#[local] Abbreviation reachable := (reachable String_other dateToLocaleString).

(** ** Refresh *)

Lemma step_refreshing st e st' :
  step st e = Some st' →
  (refreshing st ≤ 1)%nat ∧ (isLoading st = true ↔ refreshing st = 1%nat) →
  (refreshing st' ≤ 1)%nat ∧ (isLoading st' = true ↔ refreshing st' = 1%nat).
Proof.
  intros Hstep [Hle Hiff].
  destruct e; simpl in Hstep;
    try (repeat case_match; simplify_eq; simpl; done).
  - (* ClickRefresh *)
    destruct (lifecycle st); try done. destruct (isLoading st) eqn:Hl; [done|].
    simplify_eq. simpl.
    assert (refreshing st = 0%nat) as ->; [|done].
    destruct (refreshing st) as [|[|n]]; [done| |lia].
    by destruct Hiff as [_ Hc]; discriminate Hc.
  - (* RefreshTimer *)
    destruct (refreshing st) as [|n] eqn:Hn; simplify_eq. simpl.
    split; [lia|]. split; [done|]. lia.
Qed.

Lemma reachable_refreshing st :
  reachable st →
  (refreshing st ≤ 1)%nat ∧ (isLoading st = true ↔ refreshing st = 1%nat).
Proof.
  induction 1 as [t|st e st' _ IH Hstep].
  - simpl. split; [lia|]. split; [done|lia].
  - by eapply step_refreshing.
Qed.

(** At most one call of [handleRefresh] is waiting for its timer, and
    [isLoading] is set exactly while one is. *)
Theorem one_refresh_at_a_time st :
  reachable st →
  (refreshing st ≤ 1)%nat ∧
  (isLoading st = true ↔ refreshing st = 1%nat) ∧
  (isLoading st = false ↔ refreshing st = 0%nat).
Proof.
  intros Hr. destruct (reachable_refreshing st Hr) as [Hle Hiff].
  split_and!; [done|done|].
  destruct (isLoading st).
  - split; [done|]. intros H0. destruct Hiff as [Hto _].
    specialize (Hto eq_refl). congruence.
  - split; [|done]. intros _.
    destruct (refreshing st) as [|[|n]]; [done| |lia].
    by destruct Hiff as [_ Hc]; discriminate Hc.
Qed.

(** A refresh ends: while [isLoading] is set the timer can fire; when it
    does, [isLoading] is cleared, [lastUpdated] is the new date, and (while
    the component is mounted) Refresh can be clicked again. *)
Theorem refresh_completes st date :
  reachable st → isLoading st = true →
  ∃ st', step st (RefreshTimer date) = Some st' ∧
         isLoading st' = false ∧ lastUpdated st' = date ∧
         refreshing st' = 0%nat ∧
         (lifecycle st' = Mounted → is_Some (step st' ClickRefresh)).
Proof.
  intros Hr Hl. destruct (reachable_refreshing st Hr) as [_ Hiff].
  apply Hiff in Hl. simpl. rewrite Hl. eexists. split; [done|]. simpl.
  split_and!; [done..|]. intros ->. done.
Qed.

(** ** loadStats *)

(** A load that fails leaves the cards as they are and ends the call: a
    response that is not ok, a rejected [fetch], a body that does not parse,
    or the body [null]. *)
Theorem failed_load_keeps_metrics st e st' :
  e = FetchResolved false ∨ e = FetchRejected ∨ e = JsonRejected ∨
  e = JsonResolved JNull →
  step st e = Some st' →
  oceanMetrics st' = oceanMetrics st ∧ loadStats st' = Settled.
Proof.
  intros [-> | [-> | [-> | ->]]] Hstep; simpl in Hstep;
    repeat case_match; by simplify_eq.
Qed.

Lemma step_aborted st e st' :
  step st e = Some st' →
  (lifecycle st = Unmounted → aborted st = true) →
  (lifecycle st' = Unmounted → aborted st' = true).
Proof.
  intros Hstep Hinv.
  destruct e; simpl in Hstep; repeat case_match; simplify_eq; simpl;
    try done; intros Hl; try congruence; specialize (Hinv Hl); congruence.
Qed.

Lemma step_unmounted st e st' :
  step st e = Some st' → lifecycle st = Unmounted → aborted st = true →
  lifecycle st' = Unmounted ∧ aborted st' = true ∧
  oceanMetrics st' = oceanMetrics st.
Proof.
  intros Hstep Hl Ha.
  destruct e; simpl in Hstep; rewrite ?Hl, ?Ha in Hstep;
    repeat case_match; by simplify_eq.
Qed.

(** Once the component is unmounted the cards never change: the response
    may still arrive and be parsed, but [loadStats] sees [aborted] and
    returns. *)
Theorem unmounted_metrics_frozen st tr st' :
  reachable st → lifecycle st = Unmounted →
  run st tr = Some st' →
  oceanMetrics st' = oceanMetrics st.
Proof.
  intros Hr Hl.
  assert (aborted st = true) as Ha.
  { revert Hl. induction Hr as [t|st0 e st1 _ IH Hstep]; [done|].
    by eapply step_aborted. }
  clear Hr. revert st Hl Ha. induction tr as [|e tr IH]; intros st Hl Ha Hrun;
    simpl in Hrun.
  - by simplify_eq.
  - destruct (step st e) as [st1|] eqn:Hstep; [|done].
    destruct (step_unmounted _ _ _ Hstep Hl Ha) as (Hl' & Ha' & <-).
    by apply IH.
Qed.

(** The four cards keep their labels, in their order, in every reachable
    state, and they show dashes until a call of [loadStats] has returned. *)
Theorem metrics_labels_fixed st :
  reachable st →
  label <$> oceanMetrics st =
    ["Total Floats"; "Active Floats"; "Measurements"; "Last Ingest"] ∧
  (loadStats st ≠ Settled → oceanMetrics st = initialMetrics).
Proof.
  intros Hr.
  assert ((label <$> oceanMetrics st =
             ["Total Floats"; "Active Floats"; "Measurements"; "Last Ingest"] ∧
           (loadStats st ≠ Settled → oceanMetrics st = initialMetrics)) ∧
          (lifecycle st = NotMounted → loadStats st = NotStarted)) as [? _];
    [|done].
  induction Hr as [t|st e st' _ [[IHl IHd] IHn] Hstep]; [done|].
  destruct e; simpl in Hstep; repeat case_match; simplify_eq; simpl;
    try done; split_and!.
  all: try done.
  all: try (intros Hl; congruence).
  all: try (intros Hl; specialize (IHn Hl); congruence).
  all: try (intros Hne; apply IHd; congruence).
  - intros _. apply IHd. rewrite IHn; done.
  - match goal with H : loadedMetrics _ _ _ = Some _ |- _ => rename H into Hm end.
    unfold loadedMetrics in Hm. by repeat case_match; simplify_eq.
Qed.

End WithFormats.

(** ** Worked runs *)

Lemma dashboard_run_reachable tr st :
  run demo_String demo_date (init 0) tr = Some st →
  reachable demo_String demo_date st.
Proof.
  assert (∀ st0, reachable demo_String demo_date st0 →
                 run demo_String demo_date st0 tr = Some st →
                 reachable demo_String demo_date st) as Hgen.
  { induction tr as [|e tr IH]; intros st0 Hr Hrun; simpl in Hrun.
    - by simplify_eq.
    - destruct (step demo_String demo_date st0 e) as [st1|] eqn:Hstep; [|done].
      eapply IH; [|done]. by eapply reachable_step. }
  apply Hgen. constructor.
Qed.

Lemma one_refresh_at_a_time_witness :
  reachable demo_String demo_date demo_loading ∧
  isLoading demo_loading = true ∧
  refreshing demo_loading = 1%nat.
Proof.
  assert (reachable demo_String demo_date demo_loading) as Hr
    by (by apply (dashboard_run_reachable [Mount; ClickRefresh])).
  split; [exact Hr|]. split; [reflexivity|].
  destruct (one_refresh_at_a_time demo_String demo_date demo_loading Hr)
    as (_ & Hiff & _).
  apply Hiff. reflexivity.
Defined.

Lemma refresh_completes_witness :
  reachable demo_String demo_date demo_loading ∧
  isLoading demo_loading = true ∧
  ∃ st', step demo_String demo_date demo_loading (RefreshTimer 5000) = Some st' ∧
         isLoading st' = false ∧ lastUpdated st' = 5000.
Proof.
  assert (reachable demo_String demo_date demo_loading) as Hr
    by (by apply (dashboard_run_reachable [Mount; ClickRefresh])).
  assert (isLoading demo_loading = true) as Hl by reflexivity.
  split; [exact Hr|]. split; [exact Hl|].
  destruct (refresh_completes demo_String demo_date demo_loading 5000 Hr Hl)
    as (st' & Hstep & Hl' & Hd & _).
  exists st'. split; [exact Hstep|]. split; [exact Hl'|exact Hd].
Defined.

Lemma failed_load_keeps_metrics_witness :
  step demo_String demo_date demo_mounted (FetchResolved false) =
    Some (set_loadStats Settled demo_mounted) ∧
  oceanMetrics (set_loadStats Settled demo_mounted) = initialMetrics.
Proof.
  assert (step demo_String demo_date demo_mounted (FetchResolved false) =
            Some (set_loadStats Settled demo_mounted)) as Hstep by reflexivity.
  split; [exact Hstep|].
  destruct (failed_load_keeps_metrics demo_String demo_date demo_mounted
              (FetchResolved false) _ (or_introl eq_refl) Hstep) as [Hm _].
  rewrite Hm. reflexivity.
Defined.

Lemma unmounted_metrics_frozen_witness :
  reachable demo_String demo_date demo_left ∧
  lifecycle demo_left = Unmounted ∧
  run demo_String demo_date demo_left [JsonResolved demo_body] =
    Some (set_loadStats Settled demo_left) ∧
  oceanMetrics (set_loadStats Settled demo_left) = oceanMetrics demo_left.
Proof.
  assert (reachable demo_String demo_date demo_left) as Hr
    by (by apply (dashboard_run_reachable [Mount; FetchResolved true; Unmount])).
  assert (lifecycle demo_left = Unmounted) as Hl by reflexivity.
  assert (run demo_String demo_date demo_left [JsonResolved demo_body] =
            Some (set_loadStats Settled demo_left)) as Hrun by reflexivity.
  split; [exact Hr|]. split; [exact Hl|]. split; [exact Hrun|].
  exact (unmounted_metrics_frozen demo_String demo_date demo_left
           [JsonResolved demo_body] _ Hr Hl Hrun).
Defined.

Lemma metrics_labels_fixed_witness :
  reachable demo_String demo_date demo_loaded ∧
  value <$> oceanMetrics demo_loaded = ["?"; "—"; "—"; "—"] ∧
  label <$> oceanMetrics demo_loaded =
    ["Total Floats"; "Active Floats"; "Measurements"; "Last Ingest"].
Proof.
  assert (reachable demo_String demo_date demo_loaded) as Hr
    by (by apply (dashboard_run_reachable
                    [Mount; FetchResolved true; JsonResolved demo_body])).
  split; [exact Hr|]. split; [reflexivity|].
  exact (proj1 (metrics_labels_fixed demo_String demo_date demo_loaded Hr)).
Defined.

End DashboardFacts.
